(** * de-stash-aws_s3_sync.py: a shallow embedding and its properties

    The script is a single-flight wrapper around [aws s3 sync]: it takes an
    exclusive advisory lock, runs the external command, classifies the exit
    code and appends one JSON line to a log file.

    Modelling conventions.
    - A Python [str] is a [text]: the list of its code points.  [py "..."]
      is the text of a literal.  A [str] that the interpreter made by decoding
      bytes (a command-line argument, the captured output of the child) is a
      [decoded]: its code points are below 0x110000 and none is a high
      surrogate.
    - Python [int] is [Z]; a process id is an [N].
    - The operating system is an explicit [World] (the content of every file,
      by the file's identity; the two console streams; the list of effects in
      program order) threaded through a small state-and-exception monad.  What
      the environment decides is an [Env] record: the clock readings, which
      file a path names, whether a path can be opened for writing, whether
      another process holds its lock, and the result of the child process.
    - Opening the log for appending and writing to it always succeed, and the
      child always runs to an exit code with decoded output; the failures that
      are modelled are the ones the script meets in its own text: an
      [open(..., 'w')] or a [flock] that raises [IOError], a child that
      exits non-zero, and a name that is not bound.
    - Library functions the script calls ([json.dumps], [strftime],
      [timedelta.__str__], [str.join], integer formatting) are embedded after
      CPython's implementations. *)

From Stdlib Require Import ZArith NArith String Ascii List Bool Lia.
From Stdlib Require Import DecimalString DecimalZ.
From stdpp Require Import base gmap list.

Local Open Scope Z_scope.

(** A [str]: its code points. *)
Abbreviation text := (list N).

(** ** Python text primitives *)

Module PyStr.

(** The text of a literal (every character of a Rocq string names the code
    point of the same number). *)
Definition py (s : string) : text := map N_of_ascii (list_ascii_of_string s).

(** What decoding can give: a code point below 0x110000 that is no high
    surrogate (D800..DBFF).  [sys.argv] is decoded with [surrogateescape],
    which yields DC80..DCFF for the bytes it cannot decode, and the output of
    the child is decoded strictly. *)
Definition code_point_ok (c : N) : bool :=
  ((c <? 0x110000) && negb ((0xD800 <=? c) && (c <=? 0xDBFF)))%N.

Definition text_ok (s : text) : bool := forallb code_point_ok s.

Record decoded := mk_decoded {
  chars : list N;
  chars_ok : text_ok chars = true
}.

Lemma text_ok_py s : text_ok (py s) = true.
Proof.
  unfold text_ok, py. apply forallb_forall. intros c Hc.
  apply in_map_iff in Hc as (a & <- & _).
  pose proof (N_ascii_bounded a) as Hb. unfold code_point_ok.
  apply andb_true_intro. split.
  - apply N.ltb_lt. lia.
  - apply negb_true_iff, andb_false_intro1, N.leb_gt. lia.
Qed.

Lemma text_ok_app a b : text_ok (a ++ b) = text_ok a && text_ok b.
Proof. apply forallb_app. Qed.

(** A literal, and the concatenation of two decoded texts. *)
Definition lit (s : string) : decoded := mk_decoded (py s) (text_ok_py s).

Definition dapp (a b : decoded) : decoded :=
  mk_decoded (chars a ++ chars b)
    (eq_trans (text_ok_app (chars a) (chars b))
       (andb_true_intro (conj (chars_ok a) (chars_ok b)))).

(** [str(n)] and [f"{n}"] for an [int]. *)
Definition str_int (n : Z) : text := py (NilZero.string_of_int (Z.to_int n)).

(** ["%0<w>d" % n] for a non-negative [n]: left padding with zeros. *)
Definition pad0 (w : nat) (n : Z) : text :=
  let s := str_int n in
  replicate (w - length s) 48%N ++ s.

(** [sep.join(l)]. *)
Fixpoint join (sep : text) (l : list text) : text :=
  match l with
  | [] => []
  | [x] => x
  | x :: rest => x ++ sep ++ join sep rest
  end.

Definition newline : text := [10%N].

Definition is_digit (c : N) : bool := ((48 <=? c) && (c <=? 57))%N.

Definition all_digits (s : text) : bool := forallb is_digit s.

(** Whether one text is the beginning of another. *)
Fixpoint starts_with (pre s : text) : bool :=
  match pre, s with
  | [], _ => true
  | a :: pre', b :: s' => (a =? b)%N && starts_with pre' s'
  | _ :: _, [] => false
  end.

End PyStr.

Abbreviation py := PyStr.py.
Abbreviation decoded := PyStr.decoded.

(** ** [datetime] and [timedelta], after CPython's [Lib/_pydatetime.py] *)

Module Datetime.

Record datetime := mk_datetime {
  year : Z; month : Z; day : Z;
  hour : Z; minute : Z; second : Z; microsecond : Z
}.

Definition is_leap (y : Z) : bool :=
  (y mod 4 =? 0) && (negb (y mod 100 =? 0) || (y mod 400 =? 0)).

(** [_days_before_year]: days before January 1st of year [y]. *)
Definition days_before_year (y : Z) : Z :=
  let y1 := y - 1 in
  y1 * 365 + y1 / 4 - y1 / 100 + y1 / 400.

(** [_DAYS_BEFORE_MONTH], for a non-leap year. *)
Definition days_before_month_table (m : Z) : Z :=
  match m with
  | 1 => 0 | 2 => 31 | 3 => 59 | 4 => 90 | 5 => 120 | 6 => 151
  | 7 => 181 | 8 => 212 | 9 => 243 | 10 => 273 | 11 => 304 | 12 => 334
  | _ => 0
  end.

Definition days_before_month (y m : Z) : Z :=
  days_before_month_table m + (if (2 <? m) && is_leap y then 1 else 0).

(** [_ymd2ord] and [date.toordinal]. *)
Definition toordinal (d : datetime) : Z :=
  days_before_year (year d) + days_before_month (year d) (month d) + day d.

(** [_DAYS_IN_MONTH] and [_days_in_month]. *)
Definition days_in_month_table (m : Z) : Z :=
  match m with
  | 1 => 31 | 2 => 28 | 3 => 31 | 4 => 30 | 5 => 31 | 6 => 30
  | 7 => 31 | 8 => 31 | 9 => 30 | 10 => 31 | 11 => 30 | 12 => 31
  | _ => 0
  end.

Definition days_in_month (y m : Z) : Z :=
  if (m =? 2) && is_leap y then 29 else days_in_month_table m.

(** [_check_date_fields] and [_check_time_fields]: the values a
    [datetime] object can hold. *)
Definition valid (d : datetime) : bool :=
  (1 <=? year d) && (year d <=? 9999)
  && (1 <=? month d) && (month d <=? 12)
  && (1 <=? day d) && (day d <=? days_in_month (year d) (month d))
  && (0 <=? hour d) && (hour d <=? 23)
  && (0 <=? minute d) && (minute d <=? 59)
  && (0 <=? second d) && (second d <=? 59)
  && (0 <=? microsecond d) && (microsecond d <=? 999999).

(** The same ranges, as propositions. *)
Record valid_fields (d : datetime) : Prop := {
  vf_year : 1 <= year d <= 9999;
  vf_month : 1 <= month d <= 12;
  vf_day : 1 <= day d <= days_in_month (year d) (month d);
  vf_hour : 0 <= hour d <= 23;
  vf_minute : 0 <= minute d <= 59;
  vf_second : 0 <= second d <= 59;
  vf_microsecond : 0 <= microsecond d <= 999999
}.

(** [datetime.__le__]: the comparison of the seven fields as tuples. *)
Fixpoint lex_le (a b : list Z) : bool :=
  match a, b with
  | x :: a', y :: b' =>
      if x <? y then true else if y <? x then false else lex_le a' b'
  | _, _ => true
  end.

Definition fields (d : datetime) : list Z :=
  [year d; month d; day d; hour d; minute d; second d; microsecond d].

Definition le (a b : datetime) : bool := lex_le (fields a) (fields b).

(** A [timedelta] is kept as its total number of microseconds; the
    constructor's normalisation is the three projections below. *)
Definition timedelta := Z.

Definition td_days (t : timedelta) : Z := t / 86400000000.
Definition td_seconds (t : timedelta) : Z := (t mod 86400000000) / 1000000.
Definition td_microseconds (t : timedelta) : Z := t mod 1000000.

(** [datetime.__sub__] on two naive datetimes. *)
Definition sub (a b : datetime) : timedelta :=
  let days1 := toordinal a in
  let days2 := toordinal b in
  let secs1 := second a + minute a * 60 + hour a * 3600 in
  let secs2 := second b + minute b * 60 + hour b * 3600 in
  ((days1 - days2) * 86400 + (secs1 - secs2)) * 1000000
  + (microsecond a - microsecond b).

(** [timedelta.__str__]. *)
Definition str_timedelta (t : timedelta) : text :=
  let ss0 := td_seconds t in
  let mm0 := ss0 / 60 in
  let ss := ss0 mod 60 in
  let hh := mm0 / 60 in
  let mm := mm0 mod 60 in
  let s := PyStr.str_int hh ++ py ":" ++ PyStr.pad0 2 mm ++ py ":" ++ PyStr.pad0 2 ss in
  let s :=
    if td_days t =? 0 then s
    else PyStr.str_int (td_days t) ++ py " day"
         ++ (if Z.abs (td_days t) =? 1 then [] else py "s") ++ py ", " ++ s in
  if td_microseconds t =? 0 then s
  else s ++ py "." ++ PyStr.pad0 6 (td_microseconds t).

(** [strftime("%Y-%m-%d %H:%M:%S")]; the C library's [%Y] is the year
    without padding. *)
Definition strftime_local (d : datetime) : text :=
  PyStr.str_int (year d) ++ py "-" ++ PyStr.pad0 2 (month d) ++ py "-"
  ++ PyStr.pad0 2 (day d) ++ py " " ++ PyStr.pad0 2 (hour d) ++ py ":"
  ++ PyStr.pad0 2 (minute d) ++ py ":" ++ PyStr.pad0 2 (second d).

(** [strftime("%Y-%m-%dT%H:%M:%SZ")]. *)
Definition strftime_iso (d : datetime) : text :=
  PyStr.str_int (year d) ++ py "-" ++ PyStr.pad0 2 (month d) ++ py "-"
  ++ PyStr.pad0 2 (day d) ++ py "T" ++ PyStr.pad0 2 (hour d) ++ py ":"
  ++ PyStr.pad0 2 (minute d) ++ py ":" ++ PyStr.pad0 2 (second d) ++ py "Z".

End Datetime.

(** ** [json.dumps] and [json.loads] on the values the script builds

    The script serialises a [dict] whose values are strings or one nested
    [dict]; [json] is that fragment.  A [dict] keeps its insertion order, so
    an object is the list of its members in order. *)

Module Json.

Local Open Scope N_scope.

#[local] Unset Elimination Schemes.
Inductive json :=
| JStr (s : text)
| JObj (members : list (text * json)).
#[local] Set Elimination Schemes.

(** The characters the syntax names: the quote, the backslash, [u], and
    the brackets and separators. *)
Definition dquote : N := 34.
Definition backslash : N := 92.
Definition letter_u : N := 117.

Definition hex_digit (n : N) : N := if n <? 10 then 48 + n else 87 + n.

(** ['\\u{0:04x}'.format(n)] for [n] below 0x10000. *)
Definition u_escape (n : N) : text :=
  [backslash; letter_u;
   hex_digit (n / 4096 mod 16); hex_digit (n / 256 mod 16);
   hex_digit (n / 16 mod 16); hex_digit (n mod 16)].

(** The replacement of one character by [py_encode_basestring_ascii]:
    [ESCAPE_ASCII] matches the quote, the backslash and everything outside
    [' '..'~']; [ESCAPE_DCT] has the short escapes; other code points are
    written as one [\uXXXX], or as a surrogate pair from 0x10000 on. *)
Definition escape_char (c : N) : text :=
  if c =? 34 then [backslash; dquote]
  else if c =? 92 then [backslash; backslash]
  else if c =? 10 then [backslash; 110]
  else if c =? 13 then [backslash; 114]
  else if c =? 9 then [backslash; 116]
  else if c =? 8 then [backslash; 98]
  else if c =? 12 then [backslash; 102]
  else if (c <? 32) || (126 <? c) then
    if c <? 0x10000 then u_escape c
    else
      let n := c - 0x10000 in
      let s1 := N.lor 0xD800 (N.land (N.shiftr n 10) 0x3FF) in
      let s2 := N.lor 0xDC00 (N.land n 0x3FF) in
      (u_escape s1 ++ u_escape s2)%list
  else [c].

Fixpoint escape (s : text) : text :=
  match s with
  | [] => []
  | c :: s' => (escape_char c ++ escape s')%list
  end.

Definition encode_basestring_ascii (s : text) : text :=
  dquote :: (escape s ++ [dquote])%list.

(** [json.dumps(v)] with the default separators [", "] and [": "]. *)
Fixpoint dumps (v : json) : text :=
  match v with
  | JStr s => encode_basestring_ascii s
  | JObj members =>
      let fix items (l : list (text * json)) : text :=
        match l with
        | [] => []
        | (k, x) :: rest =>
            (encode_basestring_ascii k ++ [58; 32] ++ dumps x
             ++ match rest with [] => [] | _ => [44; 32] ++ items rest end)%list
        end in
      (123 :: items members ++ [125])%list
  end.

(** The members of an object as [dumps] lays them out (the local
    function of [dumps], named). *)
Fixpoint items (l : list (text * json)) : text :=
  match l with
  | [] => []
  | (k, x) :: rest =>
      (encode_basestring_ascii k ++ [58; 32] ++ dumps x
       ++ match rest with [] => [] | _ => [44; 32] ++ items rest end)%list
  end.

(** The input at a member: key, colon, value, then either the closing
    brace or a comma and the next member. *)
Definition after_member (ms : list (text * json)) (rest : text) : text :=
  match ms with
  | [] => 125 :: rest
  | _ => 44 :: 32 :: (items ms ++ 125 :: rest)%list
  end.

(** Printable ASCII only, and: no line break. *)
Definition printable (s : text) : bool :=
  forallb (fun c => (32 <=? c) && (c <=? 126)) s.

Definition one_line (s : text) : bool :=
  forallb (fun c => negb (c =? 10)) s.

(** The number of values and members of a value: the fuel its decoding
    needs. *)
Fixpoint size (v : json) : nat :=
  match v with
  | JStr _ => 1
  | JObj members =>
      S ((fix total (l : list (text * json)) : nat :=
            match l with
            | [] => O
            | (_, x) :: rest => S (size x + total rest)
            end) members)
  end.

Fixpoint members_size (l : list (text * json)) : nat :=
  match l with
  | [] => O
  | (_, x) :: rest => S (size x + members_size rest)
  end.

(** Every string of a value is a text the interpreter can hold and that
    holds no high surrogate. *)
Fixpoint json_ok (v : json) : bool :=
  match v with
  | JStr s => PyStr.text_ok s
  | JObj members =>
      (fix all (l : list (text * json)) : bool :=
         match l with
         | [] => true
         | (k, x) :: rest => PyStr.text_ok k && json_ok x && all rest
         end) members
  end.

Fixpoint members_ok (l : list (text * json)) : bool :=
  match l with
  | [] => true
  | (k, x) :: rest => PyStr.text_ok k && json_ok x && members_ok rest
  end.

(** *** Decoding: [scanstring] (strict) and [JSONObject] *)

Definition hex_value (c : N) : option N :=
  if (48 <=? c) && (c <=? 57) then Some (c - 48)
  else if (97 <=? c) && (c <=? 102) then Some (c - 87)
  else if (65 <=? c) && (c <=? 70) then Some (c - 55)
  else None.

(** [_decode_uXXXX] on four characters. *)
Definition hex4 (a b c d : N) : option N :=
  match hex_value a, hex_value b, hex_value c, hex_value d with
  | Some x, Some y, Some z, Some t => Some (((x * 16 + y) * 16 + z) * 16 + t)
  | _, _, _, _ => None
  end.

(** The [BACKSLASH] table. *)
Definition unescape (e : N) : option N :=
  if e =? 34 then Some 34
  else if e =? 92 then Some 92
  else if e =? 47 then Some 47
  else if e =? 98 then Some 8
  else if e =? 102 then Some 12
  else if e =? 110 then Some 10
  else if e =? 114 then Some 13
  else if e =? 116 then Some 9
  else None.

Definition push (c : N) (r : option (text * text)) : option (text * text) :=
  match r with
  | Some (s, rest) => Some (c :: s, rest)
  | None => None
  end.

Definition is_high_surrogate (u : N) : bool := (0xD800 <=? u) && (u <=? 0xDBFF).
Definition is_low_surrogate (u : N) : bool := (0xDC00 <=? u) && (u <=? 0xDFFF).

(** [scanstring s] reads a string body up to its closing quote and
    returns it with the input that follows.  A high surrogate escape that
    is followed by a low surrogate escape is one code point. *)
Fixpoint scanstring (s : text) : option (text * text) :=
  match s with
  | [] => None
  | c :: rest =>
      if c =? 34 then Some ([], rest)
      else if c =? 92 then
        match rest with
        | [] => None
        | e :: rest1 =>
            if e =? 117 then
              match rest1 with
              | h1 :: h2 :: h3 :: h4 :: rest2 =>
                  match hex4 h1 h2 h3 h4 with
                  | None => None
                  | Some uni =>
                      if is_high_surrogate uni then
                        match rest2 with
                        | a :: b :: tl =>
                            if (a =? 92) && (b =? 117) then
                              match tl with
                              | k1 :: k2 :: k3 :: k4 :: rest3 =>
                                  match hex4 k1 k2 k3 k4 with
                                  | None => None
                                  | Some uni2 =>
                                      if is_low_surrogate uni2 then
                                        push (0x10000 + N.lor (N.shiftl (uni - 0xD800) 10)
                                                              (uni2 - 0xDC00))
                                             (scanstring rest3)
                                      else push uni (scanstring rest2)
                                  end
                              | _ => None
                              end
                            else push uni (scanstring rest2)
                        | _ => push uni (scanstring rest2)
                        end
                      else push uni (scanstring rest2)
                  end
              | _ => None
              end
            else
              match unescape e with
              | Some ch => push ch (scanstring rest1)
              | None => None
              end
        end
      else if c <? 32 then None
      else push c (scanstring rest)
  end.

Definition is_ws (c : N) : bool :=
  (c =? 32) || (c =? 9) || (c =? 10) || (c =? 13).

Fixpoint skip_ws (s : text) : text :=
  match s with
  | [] => []
  | c :: s' => if is_ws c then skip_ws s' else s
  end.

(** [scan_once] on a value, and the member loop of [JSONObject]; [fuel]
    bounds the number of values and members read. *)
Fixpoint parse_value (fuel : nat) (s : text) : option (json * text) :=
  match fuel with
  | O => None
  | S fuel' =>
      match s with
      | [] => None
      | c :: rest =>
          if c =? 34 then
            match scanstring rest with
            | Some (str, rest') => Some (JStr str, rest')
            | None => None
            end
          else if c =? 123 then
            match skip_ws rest with
            | c1 :: rest1 =>
                if c1 =? 125 then Some (JObj [], rest1)
                else
                  match parse_members fuel' (c1 :: rest1) with
                  | Some (ms, rest') => Some (JObj ms, rest')
                  | None => None
                  end
            | [] => None
            end
          else None
      end
  end
with parse_members (fuel : nat) (s : text) : option (list (text * json) * text) :=
  match fuel with
  | O => None
  | S fuel' =>
      match s with
      | c :: rest =>
          if c =? 34 then
            match scanstring rest with
            | Some (key, rest1) =>
                match skip_ws rest1 with
                | c1 :: rest2 =>
                    if c1 =? 58 then
                      match parse_value fuel' (skip_ws rest2) with
                      | Some (v, rest3) =>
                          match skip_ws rest3 with
                          | c2 :: rest4 =>
                              if c2 =? 125 then Some ([(key, v)], rest4)
                              else if c2 =? 44 then
                                match parse_members fuel' (skip_ws rest4) with
                                | Some (ms, rest5) => Some ((key, v) :: ms, rest5)
                                | None => None
                                end
                              else None
                          | [] => None
                          end
                      | None => None
                      end
                    else None
                | [] => None
                end
            | None => None
            end
          else None
      | [] => None
      end
  end.

(** [json.loads(s)]: one value, white space around it, nothing else. *)
Definition loads (s : text) : option json :=
  match parse_value (S (length s)) (skip_ws s) with
  | Some (v, rest) =>
      match skip_ws rest with
      | [] => Some v
      | _ => None
      end
  | None => None
  end.

(** [d[k]] on a decoded object. *)
Fixpoint get (k : text) (members : list (text * json)) : option json :=
  match members with
  | [] => None
  | (k', v) :: rest => if bool_decide (k = k') then Some v else get k rest
  end.

Definition field (k : text) (v : json) : option json :=
  match v with
  | JObj members => get k members
  | JStr _ => None
  end.

Definition keys (v : json) : list text :=
  match v with
  | JObj members => map fst members
  | JStr _ => []
  end.

End Json.

(** ** The operating system as seen by the script *)

Module Os.

(** The exceptions that occur: [IOError] (an alias of [OSError], raised by
    [open] on a path that cannot be opened and by [flock] on a held lock),
    [subprocess.CalledProcessError] and [NameError]. *)
Inductive exn :=
| IOError
| CalledProcessError (returncode : Z) (stdout stderr : decoded)
| NameError (name : string).

Inductive result (A : Type) :=
| Ok (a : A)
| Raise (e : exn).
Arguments Ok {A} a.
Arguments Raise {A} e.

Inductive stream := Stdout | Stderr.

(** The effects of a run, in program order. *)
Inductive event :=
| EvTime (t : Z)
| EvGetpid (p : N)
| EvNow (d : Datetime.datetime)
| EvUtcnow (d : Datetime.datetime)
| EvOpen (path mode : text)
| EvFlock (path : text)
| EvRun (cmd : list text)
| EvWrite (path data : text)
| EvPrint (to : stream) (line : text).

(** Files are kept by identity (what a path resolves to: device and
    inode), so that two paths naming one file share its content. *)
Record World := mkWorld {
  files : gmap N text;          (* content of every existing file *)
  out : text;                   (* what was printed on standard output *)
  err : text;                   (* what was printed on standard error *)
  events : list event;          (* effects so far, oldest first *)
  clock_reads : nat             (* how often the clock was read *)
}.

(** The system clock at one instant: [time.time()] scaled to integral
    microseconds, and the local and UTC calendar readings. *)
Record Clock := mkClock {
  epoch_us : Z;
  local : Datetime.datetime;
  utc : Datetime.datetime
}.

Record CompletedProcess := mkCompleted {
  returncode : Z;
  stdout : decoded;
  stderr : decoded
}.

(** What the environment decides: the clock at the k-th reading, the
    process id, the file a path names (existing or to be created there),
    the paths that [open(..., 'w')] refuses, the files another process
    holds locked, and what the child process does with a given argument
    vector. *)
Record Env := mkEnv {
  clock : nat -> Clock;
  pid : N;
  resolve : text -> N;
  unopenable : text -> bool;
  held : N -> bool;
  child : list text -> CompletedProcess
}.

(** The lock on [path] is refused: the file cannot be opened for writing,
    or another process holds the lock on it. *)
Definition lock_refused (env : Env) (path : text) : bool :=
  unopenable env path || held env (resolve env path).

Definition M (A : Type) : Type := World -> result A * World.

#[global] Instance M_ret : MRet M := fun A a w => (Ok a, w).
#[global] Instance M_bind : MBind M := fun A B f m w =>
  match m w with
  | (Ok a, w') => f a w'
  | (Raise e, w') => (Raise e, w')
  end.

Definition raise {A} (e : exn) : M A := fun w => (Raise e, w).

(** [try: body except ...: handler]; the handler re-raises what its
    [except] clause does not match. *)
Definition try_except {A} (body : M A) (handler : exn -> M A) : M A := fun w =>
  match body w with
  | (Ok a, w') => (Ok a, w')
  | (Raise e, w') => handler e w'
  end.

Definition emit (e : event) : M unit := fun w =>
  (Ok tt, mkWorld (files w) (out w) (err w) (events w ++ [e]) (clock_reads w)).

Definition set_files (f : gmap N text) : M unit := fun w =>
  (Ok tt, mkWorld f (out w) (err w) (events w) (clock_reads w)).

Definition get_files : M (gmap N text) := fun w => (Ok (files w), w).

(** The file system after [data] was appended to the file [id]. *)
Definition append_to (id : N) (data : text) (f : gmap N text) : gmap N text :=
  <[id := default [] (f !! id) ++ data]> f.

Section WithEnv.
Context (env : Env).

Definition read_clock : M Clock := fun w =>
  (Ok (clock env (clock_reads w)),
   mkWorld (files w) (out w) (err w) (events w) (S (clock_reads w))).

(** [int(time.time()*1e6)]. *)
Definition time_us : M Z :=
  c ← read_clock; emit (EvTime (epoch_us c));; mret (epoch_us c).

(** [os.getpid()]. *)
Definition getpid : M N := emit (EvGetpid (pid env));; mret (pid env).

(** [datetime.now()] and [datetime.utcnow()]. *)
Definition datetime_now : M Datetime.datetime :=
  c ← read_clock; emit (EvNow (local c));; mret (local c).
Definition datetime_utcnow : M Datetime.datetime :=
  c ← read_clock; emit (EvUtcnow (utc c));; mret (utc c).

(** [open(path, 'w')]: raises when the path cannot be opened, and
    otherwise creates or truncates the file; the handle is the path. *)
Definition open_w (path : text) : M text :=
  emit (EvOpen path (py "w"));;
  if unopenable env path then raise IOError
  else
    f ← get_files;
    set_files (<[resolve env path := []]> f);;
    mret path.

(** [open(path, 'a')]: creates when absent, keeps the content. *)
Definition open_a (path : text) : M text :=
  emit (EvOpen path (py "a"));;
  f ← get_files;
  set_files (match f !! resolve env path with
             | Some _ => f
             | None => <[resolve env path := []]> f
             end);;
  mret path.

(** [f.write(data)] on a handle opened for appending. *)
Definition write (handle data : text) : M unit :=
  emit (EvWrite handle data);;
  f ← get_files;
  set_files (append_to (resolve env handle) data f).

(** [fcntl.flock(f, LOCK_EX | LOCK_NB)]. *)
Definition flock (handle : text) : M unit :=
  emit (EvFlock handle);;
  if held env (resolve env handle) then raise IOError else mret tt.

(** [subprocess.run(cmd, capture_output=True, text=True, check=True)]. *)
Definition subprocess_run (cmd : list text) : M CompletedProcess :=
  emit (EvRun cmd);;
  let p := child env cmd in
  if returncode p =? 0 then mret p
  else raise (CalledProcessError (returncode p) (stdout p) (stderr p)).

End WithEnv.

(** [print(line)] and [print(line, file=...)]. *)
Definition print (to : stream) (line : text) : M unit := fun w =>
  (Ok tt,
   match to with
   | Stdout => mkWorld (files w) (out w ++ line ++ PyStr.newline) (err w)
                       (events w ++ [EvPrint to line]) (clock_reads w)
   | Stderr => mkWorld (files w) (out w) (err w ++ line ++ PyStr.newline)
                       (events w ++ [EvPrint to line]) (clock_reads w)
   end).

(** Reading a global name of the module: [NameError] unless bound. *)
Definition load_global (bound : list string) (name : string) : M unit :=
  if existsb (String.eqb name) bound then mret tt else raise (NameError name).

Definition initial (f : gmap N text) : World := mkWorld f [] [] [] O.

(** The commands run, the locks tried, the files opened and the data
    written to one path, read off the effects. *)
Definition runs (w : World) : list (list text) :=
  omap (fun e => match e with EvRun c => Some c | _ => None end) (events w).

Definition lock_attempts (w : World) : list text :=
  omap (fun e => match e with EvFlock p => Some p | _ => None end) (events w).

Definition opens (w : World) : list (text * text) :=
  omap (fun e => match e with EvOpen p m => Some (p, m) | _ => None end) (events w).

Definition written (path : text) (w : World) : list text :=
  omap (fun e => match e with
                 | EvWrite p d => if bool_decide (p = path) then Some d else None
                 | _ => None
                 end) (events w).

Definition writes (w : World) : list (text * text) :=
  omap (fun e => match e with EvWrite p d => Some (p, d) | _ => None end) (events w).

End Os.

(** ** The script *)

Module Script.
Import Os Json.

(** The result of [parser.parse_args()]. *)
Record Args := mkArgs {
  source : decoded;
  destination : decoded;
  sync_options : list decoded;
  o : bool;
  lock : text;
  log : text
}.

(** The names bound at module level: the imports and the two functions. *)
Definition globals : list string :=
  ["argparse"; "json"; "os"; "subprocess"; "tempfile"; "time"; "datetime";
   "fcntl"; "log_message"; "main"]%string.

(** Line 35: the f-string of the invocation id, on the integer
    [int(time.time()*1e6)] and the process id. *)
Definition unique_id (t : Z) (p : N) : text :=
  PyStr.str_int t ++ py "-" ++ PyStr.str_int (Z.of_N p).

(** Line 48: the argument vector. *)
Definition cmd_of (args : Args) : list text :=
  [py "aws"; py "s3"; py "sync"; PyStr.chars (source args); PyStr.chars (destination args)]
  ++ map PyStr.chars (sync_options args).

(** Lines 57-68: the duration and the [extra_info] dictionary. *)
Definition extra_info (args : Args) (sync_output : text)
    (start_time end_time : Datetime.datetime) : json :=
  let duration := Datetime.sub end_time start_time in
  JObj [
    (py "source", JStr (PyStr.chars (source args)));
    (py "destination", JStr (PyStr.chars (destination args)));
    (py "options", JStr (PyStr.join (py " ") (map PyStr.chars (sync_options args))));
    (py "sync_output", JStr sync_output);
    (py "start_time", JStr (Datetime.strftime_local start_time));
    (py "end_time", JStr (Datetime.strftime_local end_time));
    (py "duration", JStr (Datetime.str_timedelta duration)) ].

(** Lines 76-81: the message of a failed run. *)
Definition failure_message (return_code : Z) : text :=
  if return_code =? 1 then py "Sync failed due to a general error, exit code 1"
  else if return_code =? 2 then py "Sync failed due to a permission error, exit code 2"
  else py "Sync failed with exit code " ++ PyStr.str_int return_code.

(** Line 84: the text of the report on standard error. *)
Definition error_report (return_code : Z) (sync_output unique_id : text) : text :=
  py "Error." ++ PyStr.newline ++ py "Exit code " ++ PyStr.str_int return_code
  ++ py ": " ++ sync_output ++ PyStr.newline ++ py "UNIQUE_ID " ++ unique_id.

(** Lines 14-20: the [log_entry] dictionary. *)
Definition log_entry (timestamp unique_id status message : text)
    (extra_info : json) : json :=
  JObj [
    (py "timestamp", JStr timestamp);
    (py "unique_id", JStr unique_id);
    (py "status", JStr status);
    (py "message", JStr message);
    (py "extra_info", extra_info) ].

Section WithEnv.
Context (env : Env).

(** Lines 13-22. *)
Definition log_message (log_file unique_id status message : text)
    (extra_info : json) : M unit :=
  now ← datetime_utcnow env;
  let log_entry :=
    log_entry (Datetime.strftime_iso now) unique_id status message extra_info in
  f ← open_a env log_file;
  write env f (dumps log_entry ++ PyStr.newline).

(** Lines 49-55: the child process, its output and its exit code. *)
Definition run_sync (cmd : list text) : M (text * Z) :=
  try_except
    (result ← subprocess_run env cmd;
     mret (PyStr.chars (stdout result), 0))
    (fun e => match e with
              | CalledProcessError rc so se =>
                  mret (PyStr.chars so ++ PyStr.newline ++ PyStr.chars se, rc)
              | _ => raise e
              end).

(** Lines 40-45: the lock; [false] stands for the early [return]. *)
Definition acquire_lock (path : text) : M bool :=
  try_except
    (lock_file ← open_w env path;
     flock env lock_file;;
     mret true)
    (fun e => match e with
              | IOError => print Stdout (py "Error: Could not acquire lock");; mret false
              | _ => raise e
              end).

(** Lines 24-84. *)
Definition main (args : Args) : M unit :=
  t ← time_us env;
  p ← getpid env;
  let unique_id := unique_id t p in
  start_time ← datetime_now env;
  locked ← acquire_lock (lock args);
  if negb locked then mret tt else
  let cmd := cmd_of args in
  '(sync_output, return_code) ← run_sync cmd;
  end_time ← datetime_now env;
  let extra_info := extra_info args sync_output start_time end_time in
  if return_code =? 0 then
    log_message (log args) unique_id (py "info") (py "Sync successful.") extra_info;;
    if o args then
      print Stdout (py "Well done. Source directory: " ++ PyStr.chars (source args)
                    ++ py ". Details: " ++ log args)
    else mret tt
  else
    let status := py "error" in
    let message := failure_message return_code in
    log_message (log args) unique_id status message extra_info;;
    load_global globals "sys";;
    print Stderr (error_report return_code sync_output unique_id).

(** Running the script from world [w]: the result and the world left. *)
Definition outcome (args : Args) (w : World) : result unit := fst (main args w).
Definition after (args : Args) (w : World) : World := snd (main args w).

(** Lines 86-87: the exit status of the process is 0 when [main]
    returns and 1 when an exception escapes it. *)
Definition exit_status (r : result unit) : Z :=
  match r with
  | Ok _ => 0
  | Raise _ => 1
  end.

End WithEnv.

(** Following the specification (section 4.2): the classification table,
    status and message by exit code. *)
Definition spec_classify (exit_code : Z) : text * text :=
  if exit_code =? 0 then (py "info", py "Sync successful.")
  else if exit_code =? 1 then
    (py "error", py "Sync failed due to a general error, exit code 1")
  else if exit_code =? 2 then
    (py "error", py "Sync failed due to a permission error, exit code 2")
  else (py "error", py "Sync failed with exit code " ++ PyStr.str_int exit_code).

(** What the child left for the log (lines 51 and 54). *)
Definition captured_output (p : CompletedProcess) : text :=
  if returncode p =? 0 then PyStr.chars (stdout p)
  else PyStr.chars (stdout p) ++ PyStr.newline ++ PyStr.chars (stderr p).

(** The text printed with [--o] (line 73). *)
Definition well_done (args : Args) : text :=
  py "Well done. Source directory: " ++ PyStr.chars (source args)
  ++ py ". Details: " ++ log args.

(** The line a run appends to the log: the clock readings are the
    second and third (start and end, local) and the fourth (UTC) after
    the [r] readings made before the run; the first gives the id. *)
Definition record_line (env : Env) (args : Args) (r : nat) (status message : text) : text :=
  dumps (log_entry
           (Datetime.strftime_iso (utc (clock env (3 + r))))
           (unique_id (epoch_us (clock env r)) (pid env))
           status message
           (extra_info args (captured_output (child env (cmd_of args)))
              (local (clock env (1 + r))) (local (clock env (2 + r)))))
  ++ PyStr.newline.

(** Reading the log back: the last line written to [path], decoded, and
    one of its string fields (top level, or inside [extra_info]). *)
Definition last_record (path : text) (w : World) : option json :=
  match last (written path w) with
  | Some line => loads line
  | None => None
  end.

Definition str_field (k : string) (v : json) : option text :=
  match field (py k) v with
  | Some (JStr s) => Some s
  | _ => None
  end.

Definition extra_field (k : string) (v : json) : option text :=
  match field (py "extra_info") v with
  | Some e => str_field k e
  | None => None
  end.

(** The two local clock readings of a run that starts after [r] earlier
    readings: [start_time] (line 37) and [end_time] (line 57). *)
Definition start_reading (env : Env) (w : World) : Datetime.datetime :=
  local (clock env (1 + clock_reads w)).
Definition end_reading (env : Env) (w : World) : Datetime.datetime :=
  local (clock env (2 + clock_reads w)).

(** The environment [env] with another standard error for the child. *)
Definition with_stderr (env : Env) (data : decoded) : Env :=
  mkEnv (clock env) (pid env) (resolve env) (unopenable env) (held env)
        (fun cmd => mkCompleted (returncode (child env cmd)) (stdout (child env cmd)) data).

(** The arguments [args] with another remainder of options. *)
Definition with_options (args : Args) (options : list decoded) : Args :=
  mkArgs (source args) (destination args) options (o args) (lock args) (log args).

(** *** The statements of the specification, in its words *)

(** Section 8, property 1: a successful run appends exactly one entry,
    [info], "Sync successful.", whose duration is the end reading minus
    the start reading, and that difference is not negative. *)
Definition success_logged (env : Env) (args : Args) (w : World) : Prop :=
  exists entry,
    written (log args) (after env args w)
      = written (log args) w ++ [dumps entry ++ PyStr.newline]
    /\ str_field "status" entry = Some (py "info")
    /\ str_field "message" entry = Some (py "Sync successful.")
    /\ extra_field "duration" entry
       = Some (Datetime.str_timedelta (Datetime.sub (end_reading env w) (start_reading env w))).

Definition duration_nonneg (env : Env) (w : World) : Prop :=
  0 <= Datetime.sub (end_reading env w) (start_reading env w).

(** Sections 2 and 6: on lock failure nothing is run and nothing is
    logged, the fixed message is on standard output and the process ends
    with status 0 ... *)
Definition lock_failure_stops (env : Env) (args : Args) (w : World) : Prop :=
  runs (after env args w) = runs w
  /\ written (log args) (after env args w) = written (log args) w
  /\ out (after env args w) = out w ++ py "Error: Could not acquire lock" ++ PyStr.newline
  /\ err (after env args w) = err w
  /\ exit_status (outcome env args w) = 0.

(** ... and the log file is as before. *)
Definition log_file_unchanged (env : Env) (args : Args) (w : World) : Prop :=
  files (after env args w) !! resolve env (log args) = files w !! resolve env (log args).

(** Section 4.2: the start time is read after the lock is taken and
    immediately before the spawn, the end time immediately after it; the
    pair of readings found in that position of a list of effects. *)
Fixpoint spec_timing (tr : list event) : option (Datetime.datetime * Datetime.datetime) :=
  match tr with
  | [] => None
  | EvFlock _ :: (EvNow s :: EvRun _ :: EvNow e :: _) => Some (s, e)
  | _ :: rest => spec_timing rest
  end.

Definition timed_around_spawn (env : Env) (args : Args) (w : World) : Prop :=
  exists s e entry,
    spec_timing (drop (length (events w)) (events (after env args w))) = Some (s, e)
    /\ last_record (log args) (after env args w) = Some entry
    /\ extra_field "duration" entry = Some (Datetime.str_timedelta (Datetime.sub e s)).

(** Section 3: the log is append-only; what it held before a run is a
    prefix of what it holds after. *)
Definition log_prefix_kept (env : Env) (args : Args) (w : World) : Prop :=
  forall old, files w !! resolve env (log args) = Some old ->
    exists suffix, files (after env args w) !! resolve env (log args) = Some (old ++ suffix).

End Script.

(** ** Concrete runs *)

Module Demo.
Import Datetime Os Script.

(** A host on UTC: a run of 1 h 2 min 3 s on a March morning. *)
Definition morning : datetime := mk_datetime 2024 3 7 9 5 0 0.
Definition later : datetime := mk_datetime 2024 3 7 10 7 3 1.

Definition clock_plain (k : nat) : Clock :=
  match k with
  | O => mkClock 1709802300000000 morning morning
  | 1%nat => mkClock 1709802300000020 morning morning
  | 2%nat => mkClock 1709806023000001 later later
  | _ => mkClock 1709806023000300 later later
  end.

(** A host on US Eastern time in the night of 3 November 2024: the run
    starts at 01:59:50 EDT and ends fifteen seconds later, at 01:00:05 EST. *)
Definition before_fallback : datetime := mk_datetime 2024 11 3 1 59 50 0.
Definition after_fallback : datetime := mk_datetime 2024 11 3 1 0 5 0.

Definition clock_fallback (k : nat) : Clock :=
  match k with
  | O => mkClock 1730613590000000 before_fallback (mk_datetime 2024 11 3 5 59 50 0)
  | 1%nat => mkClock 1730613590000020 before_fallback (mk_datetime 2024 11 3 5 59 50 20)
  | 2%nat => mkClock 1730613605000000 after_fallback (mk_datetime 2024 11 3 6 0 5 0)
  | _ => mkClock 1730613605000300 after_fallback (mk_datetime 2024 11 3 6 0 5 300)
  end.

Definition default_lock : text := py "/var/lock/aws_s3_sync.lock".
Definition default_log : text := py "/var/log/aws_s3_sync.log".

(** Another spelling of the path of the log file. *)
Definition log_by_detour : text := py "/var/log/../log/aws_s3_sync.log".

(** Every path names a file of its own, except that the detour names the
    log file. *)
Definition resolve_paths (path : text) : N :=
  if bool_decide (path = log_by_detour) then Npos (encode default_log)
  else Npos (encode path).

(** The child prints one line on each stream, the first with an arrow
    (U+2192) and a face (U+1F600), and exits with [rc]. *)
Definition arrow_line : decoded :=
  PyStr.mk_decoded (py "upload: a.txt " ++ [0x2192%N; 0x1F600%N] ++ py " s3") eq_refl.

Definition child_exits (rc : Z) (cmd : list text) : CompletedProcess :=
  mkCompleted rc arrow_line (PyStr.lit "warning: b.txt skipped").

Definition env_free (rc : Z) : Env :=
  mkEnv clock_plain 4242 resolve_paths (fun _ => false) (fun _ => false) (child_exits rc).
Definition env_held : Env :=
  mkEnv clock_plain 4243 resolve_paths (fun _ => false) (fun _ => true) (child_exits 0).
Definition env_unopenable : Env :=
  mkEnv clock_plain 4244 resolve_paths (fun _ => true) (fun _ => false) (child_exits 0).
Definition env_fallback : Env :=
  mkEnv clock_fallback 4242 resolve_paths (fun _ => false) (fun _ => false) (child_exits 0).

Definition args_default : Args :=
  mkArgs (PyStr.lit "/data") (PyStr.lit "s3://bucket/data")
         [PyStr.lit "--delete"; PyStr.lit "--dryrun"] true default_lock default_log.

(** [--lock] given the log file, spelled by the detour. *)
Definition args_alias : Args :=
  mkArgs (PyStr.lit "/data") (PyStr.lit "s3://bucket/data") [] false
         log_by_detour default_log.

Definition old_log : text := py "earlier entry" ++ PyStr.newline.

Definition world_fresh : World := initial ∅.
Definition world_logged : World := initial {[ resolve_paths default_log := old_log ]}.

End Demo.

(** * Properties *)

(** ** Integer formatting and texts *)

Module PyStrFacts.
Import PyStr.

Lemma py_inj s1 s2 : py s1 = py s2 -> s1 = s2.
Proof.
  unfold py. intros H.
  rewrite <- (string_of_list_ascii_of_string s1), <- (string_of_list_ascii_of_string s2).
  f_equal. revert H. generalize (list_ascii_of_string s1) (list_ascii_of_string s2).
  induction l as [|a l IH]; intros [|b l'] H; try discriminate; [reflexivity|].
  cbn [map] in H. inversion H as [[Hab Hl]]. f_equal.
  - rewrite <- (ascii_N_embedding a), <- (ascii_N_embedding b), Hab. reflexivity.
  - apply IH, Hl.
Qed.

Lemma to_int_proper z :
  Z.to_int z <> Decimal.Pos Decimal.Nil /\ Z.to_int z <> Decimal.Neg Decimal.Nil.
Proof.
  destruct z as [|p|p]; simpl; split; try discriminate;
    intros [= H]; exact (DecimalPos.Unsigned.to_uint_nonnil p H).
Qed.

(** [str] is injective on integers. *)
Lemma str_int_inj a b : str_int a = str_int b -> a = b.
Proof.
  unfold str_int. intros H%py_inj.
  destruct (to_int_proper a) as [Ha1 Ha2], (to_int_proper b) as [Hb1 Hb2].
  apply DecimalZ.to_int_inj.
  pose proof (NilZero.isi _ Ha1 Ha2) as Ia.
  pose proof (NilZero.isi _ Hb1 Hb2) as Ib.
  rewrite H in Ia. congruence.
Qed.

Lemma all_digits_uint d : all_digits (py (NilEmpty.string_of_uint d)) = true.
Proof. induction d; simpl; auto. Qed.

(** A non-negative integer prints as digits only. *)
Lemma all_digits_str_int z : 0 <= z -> all_digits (str_int z) = true.
Proof.
  intros Hz. destruct z as [|p|p]; [reflexivity| |lia].
  unfold str_int. simpl Z.to_int. unfold NilZero.string_of_int, NilZero.string_of_uint.
  destruct (Pos.to_uint p); try apply all_digits_uint. reflexivity.
Qed.

Lemma all_digits_dash a b : all_digits (a ++ 45%N :: b) = false.
Proof.
  unfold all_digits. rewrite forallb_app. cbn [forallb].
  change (is_digit 45) with false. apply andb_false_r.
Qed.

(** Two texts that end in digits after a dash agree part by part. *)
Lemma split_last_dash a1 a2 b1 b2 :
  all_digits b1 = true -> all_digits b2 = true ->
  a1 ++ 45%N :: b1 = a2 ++ 45%N :: b2 -> a1 = a2 /\ b1 = b2.
Proof.
  intros H1 H2. revert a2.
  induction a1 as [|c a1 IH]; intros [|c2 a2] Heq.
  - inversion Heq. auto.
  - cbn [app] in Heq. inversion Heq as [[Hc Hb]].
    rewrite Hb, all_digits_dash in H1. discriminate.
  - cbn [app] in Heq. inversion Heq as [[Hc Hb]].
    rewrite <- Hb, all_digits_dash in H2. discriminate.
  - cbn [app] in Heq. inversion Heq as [[Hc Hb]].
    destruct (IH _ Hb) as [-> ->]. auto.
Qed.

(** Line 35: the identifier determines the timestamp and the process id. *)
Lemma unique_id_inj t1 t2 (p1 p2 : N) :
  str_int t1 ++ py "-" ++ str_int (Z.of_N p1) = str_int t2 ++ py "-" ++ str_int (Z.of_N p2) ->
  t1 = t2 /\ p1 = p2.
Proof.
  intros H. change (py "-") with [45%N] in H. cbn [app] in H.
  apply split_last_dash in H; try (apply all_digits_str_int; lia).
  destruct H as [Ht Hp]. apply str_int_inj in Ht, Hp. split; [exact Ht | lia].
Qed.

(** *** What formatting produces can be decoded again *)

Lemma text_ok_str_int n : text_ok (str_int n) = true.
Proof. apply text_ok_py. Qed.

Lemma text_ok_pad0 w n : text_ok (pad0 w n) = true.
Proof.
  unfold pad0. rewrite text_ok_app, text_ok_str_int, andb_true_r.
  induction (w - length (str_int n))%nat as [|k IH]; [reflexivity|exact IH].
Qed.

Lemma text_ok_join sep (l : list decoded) :
  text_ok sep = true -> text_ok (join sep (map chars l)) = true.
Proof.
  intros Hsep. induction l as [|x l IH]; [reflexivity|].
  cbn [map join]. destruct l as [|y l]; [apply chars_ok|].
  cbn [map] in *. rewrite !text_ok_app, chars_ok, Hsep, IH. reflexivity.
Qed.

End PyStrFacts.

(** ** Calendar arithmetic *)

Module DatetimeFacts.
Import Datetime.

Ltac div_lia := Z.div_mod_to_equations; lia.

Lemma days_before_year_succ y :
  days_before_year (y + 1) = days_before_year y + 365 + (if is_leap y then 1 else 0).
Proof.
  unfold days_before_year, is_leap.
  replace (y + 1 - 1) with y by lia.
  destruct (y mod 4 =? 0) eqn:E4; destruct (y mod 100 =? 0) eqn:E100;
    destruct (y mod 400 =? 0) eqn:E400; cbn [negb orb andb];
    rewrite ?Z.eqb_eq, ?Z.eqb_neq in *; div_lia.
Qed.

Lemma days_before_year_mono y1 y2 :
  y1 <= y2 -> days_before_year y1 <= days_before_year y2.
Proof. unfold days_before_year. intros H. div_lia. Qed.

Lemma month_cases m : 1 <= m <= 12 ->
  m = 1 \/ m = 2 \/ m = 3 \/ m = 4 \/ m = 5 \/ m = 6 \/
  m = 7 \/ m = 8 \/ m = 9 \/ m = 10 \/ m = 11 \/ m = 12.
Proof. lia. Qed.

(** The last day of a month is before the first day of the next. *)
Lemma days_before_month_next y m :
  1 <= m <= 11 ->
  days_before_month y m + days_in_month y m = days_before_month y (m + 1).
Proof.
  intros Hm. unfold days_before_month, days_in_month.
  destruct (is_leap y);
    destruct (month_cases m ltac:(lia)) as [->|[->|[->|[->|[->|[->|[->|[->|[->|[->|[->| ->]]]]]]]]]]];
    try reflexivity; lia.
Qed.

Lemma days_before_month_mono y m1 m2 :
  1 <= m1 -> m1 <= m2 -> m2 <= 12 ->
  days_before_month y m1 <= days_before_month y m2.
Proof.
  intros H1 H12 H2. unfold days_before_month.
  destruct (is_leap y);
    destruct (month_cases m1 ltac:(lia)) as [->|[->|[->|[->|[->|[->|[->|[->|[->|[->|[->| ->]]]]]]]]]]];
    destruct (month_cases m2 ltac:(lia)) as [->|[->|[->|[->|[->|[->|[->|[->|[->|[->|[->| ->]]]]]]]]]]];
    cbn; lia.
Qed.

Lemma days_in_year y m :
  1 <= m <= 12 ->
  days_before_month y m + days_in_month y m <= 365 + (if is_leap y then 1 else 0).
Proof.
  intros Hm. unfold days_before_month, days_in_month.
  destruct (is_leap y);
    destruct (month_cases m Hm) as [->|[->|[->|[->|[->|[->|[->|[->|[->|[->|[->| ->]]]]]]]]]]];
    cbn; lia.
Qed.

Lemma days_before_month_nonneg y m : 0 <= days_before_month y m.
Proof.
  unfold days_before_month, days_before_month_table.
  destruct ((2 <? m) && is_leap y);
    repeat (match goal with |- context [match ?x with _ => _ end] => destruct x end);
    lia.
Qed.

Lemma valid_spec d : valid d = true -> valid_fields d.
Proof.
  unfold valid. rewrite !andb_true_iff, !Z.leb_le. intros H.
  constructor; lia.
Qed.

(** An earlier date has a smaller ordinal. *)
Lemma toordinal_lt a b :
  valid_fields a -> valid_fields b ->
  (year a < year b
   \/ (year a = year b /\ (month a < month b
        \/ (month a = month b /\ day a < day b)))) ->
  toordinal a < toordinal b.
Proof.
  intros [Ya Ma Da _ _ _ _] [Yb Mb Db _ _ _ _] Hlt. unfold toordinal.
  destruct Hlt as [Hy | [Hy [Hm | [Hm Hd]]]].
  - pose proof (days_in_year (year a) (month a) Ma).
    pose proof (days_before_year_succ (year a)).
    pose proof (days_before_year_mono (year a + 1) (year b) ltac:(lia)).
    pose proof (days_before_month_nonneg (year b) (month b)).
    lia.
  - rewrite Hy in *.
    pose proof (days_before_month_next (year b) (month a) ltac:(lia)).
    pose proof (days_before_month_mono (year b) (month a + 1) (month b)
                  ltac:(lia) ltac:(lia) ltac:(lia)).
    lia.
  - rewrite Hy, Hm in *. lia.
Qed.

(** The difference of two readings is non-negative when the first is
    not earlier than the second. *)
Lemma sub_nonneg a b :
  valid a = true -> valid b = true -> le b a = true -> 0 <= sub a b.
Proof.
  intros Va%valid_spec Vb%valid_spec Hle.
  pose proof (toordinal_lt b a Vb Va) as Hord.
  destruct Va as [Ya Ma Da Ha Mia Sa Ua], Vb as [Yb Mb Db Hb Mib Sb Ub].
  unfold le, fields in Hle. cbn [lex_le] in Hle. unfold sub.
  repeat match type of Hle with
         | (if ?x <? ?y then _ else _) = true =>
             destruct (Z.ltb_spec x y); [|destruct (Z.ltb_spec y x); [discriminate|]]
         end;
    try (assert (toordinal b < toordinal a) by (apply Hord; lia); lia);
    assert (toordinal b = toordinal a)
      by (unfold toordinal; replace (year b) with (year a) by lia;
          replace (month b) with (month a) by lia; lia);
    lia.
Qed.

Lemma text_ok_strftime_local d : PyStr.text_ok (strftime_local d) = true.
Proof.
  unfold strftime_local.
  rewrite !PyStr.text_ok_app, !PyStr.text_ok_py, !PyStrFacts.text_ok_pad0,
    PyStrFacts.text_ok_str_int.
  reflexivity.
Qed.

Lemma text_ok_strftime_iso d : PyStr.text_ok (strftime_iso d) = true.
Proof.
  unfold strftime_iso.
  rewrite !PyStr.text_ok_app, !PyStr.text_ok_py, !PyStrFacts.text_ok_pad0,
    PyStrFacts.text_ok_str_int.
  reflexivity.
Qed.

Lemma text_ok_str_timedelta t : PyStr.text_ok (str_timedelta t) = true.
Proof.
  unfold str_timedelta. cbv zeta.
  destruct (td_microseconds t =? 0); destruct (td_days t =? 0);
    destruct (Z.abs (td_days t) =? 1);
    rewrite ?PyStr.text_ok_app, ?PyStr.text_ok_py, ?PyStrFacts.text_ok_pad0,
      ?PyStrFacts.text_ok_str_int; reflexivity.
Qed.

End DatetimeFacts.


(** ** The JSON fragment: decoding inverts encoding *)

Module JsonFacts.
Import Json.
Local Open Scope N_scope.

Ltac div_lia := Z.div_mod_to_equations; lia.

Lemma json_ind (P : json -> Prop) :
  (forall s, P (JStr s)) ->
  (forall ms, Forall (fun kv => P (snd kv)) ms -> P (JObj ms)) ->
  forall v, P v.
Proof.
  intros Hstr Hobj.
  fix IH 1. intros [s | ms].
  - apply Hstr.
  - apply Hobj. induction ms as [|[k x] ms IHms]; constructor.
    + apply IH.
    + exact IHms.
Qed.

Lemma hex_value_digit d : d < 16 -> hex_value (hex_digit d) = Some d.
Proof.
  intros H.
  assert (H' : d = 0 \/ d = 1 \/ d = 2 \/ d = 3 \/ d = 4 \/ d = 5 \/ d = 6 \/ d = 7
               \/ d = 8 \/ d = 9 \/ d = 10 \/ d = 11 \/ d = 12 \/ d = 13 \/ d = 14
               \/ d = 15) by lia.
  repeat (destruct H' as [->|H']; [reflexivity|]). subst d. reflexivity.
Qed.

(** Four hexadecimal digits are read back as the number they write. *)
Lemma hex4_digits n :
  n < 0x10000 ->
  hex4 (hex_digit (n / 4096 mod 16)) (hex_digit (n / 256 mod 16))
       (hex_digit (n / 16 mod 16)) (hex_digit (n mod 16)) = Some n.
Proof.
  intros Hn. unfold hex4.
  rewrite !hex_value_digit by (apply N.mod_lt; lia). f_equal.
  replace (n / 4096) with (n / 16 / 16 / 16) by (rewrite !N.Div0.div_div; reflexivity).
  replace (n / 256) with (n / 16 / 16) by (rewrite !N.Div0.div_div; reflexivity).
  pose proof (N.div_mod n 16 ltac:(lia)) as E0.
  pose proof (N.div_mod (n / 16) 16 ltac:(lia)) as E1.
  pose proof (N.div_mod (n / 16 / 16) 16 ltac:(lia)) as E2.
  pose proof (N.div_mod (n / 16 / 16 / 16) 16 ltac:(lia)) as E3.
  pose proof (N.mod_lt n 16 ltac:(lia)).
  pose proof (N.mod_lt (n / 16) 16 ltac:(lia)).
  pose proof (N.mod_lt (n / 16 / 16) 16 ltac:(lia)).
  pose proof (N.mod_lt (n / 16 / 16 / 16) 16 ltac:(lia)).
  set (q1 := n / 16) in *. set (q2 := q1 / 16) in *. set (q3 := q2 / 16) in *.
  set (q4 := q3 / 16) in *.
  clearbody q4. clearbody q3. clearbody q2. clearbody q1.
  generalize dependent (n mod 16). generalize dependent (q1 mod 16).
  generalize dependent (q2 mod 16). generalize dependent (q3 mod 16).
  intros. lia.
Qed.

Lemma lor_high_low x b : b < 1024 -> N.lor (x * 1024) b = x * 1024 + b.
Proof.
  intros Hb.
  assert (Hland : N.land (x * 1024) b = 0).
  { apply N.bits_inj_0. intros m. rewrite N.land_spec.
    destruct (N.lt_ge_cases m 10) as [Hm|Hm].
    - change 1024 with (2 ^ 10). rewrite N.mul_pow2_bits_low by exact Hm. reflexivity.
    - destruct (N.eq_dec b 0) as [->|Hb0]; [rewrite N.bits_0; apply andb_false_r|].
      rewrite (N.bits_above_log2 b m); [apply andb_false_r|].
      apply N.lt_le_trans with 10; [|exact Hm].
      apply N.log2_lt_pow2; [lia | exact Hb]. }
  rewrite <- N.lxor_lor by exact Hland.
  symmetry. apply N.add_nocarry_lxor, Hland.
Qed.

(** The surrogate pair of a code point from 0x10000 on. *)
Lemma surrogate_pair c :
  0x10000 <= c -> c < 0x110000 ->
  let n := c - 0x10000 in
  let s1 := N.lor 0xD800 (N.land (N.shiftr n 10) 0x3FF) in
  let s2 := N.lor 0xDC00 (N.land n 0x3FF) in
  s1 < 0x10000 /\ s2 < 0x10000
  /\ is_high_surrogate s1 = true /\ is_low_surrogate s2 = true
  /\ 0x10000 + N.lor (N.shiftl (s1 - 0xD800) 10) (s2 - 0xDC00) = c.
Proof.
  intros Hlo Hhi n s1 s2.
  assert (Hq : n / 1024 < 1024) by (apply N.Div0.div_lt_upper_bound; subst n; lia).
  assert (Hr : n mod 1024 < 1024) by (apply N.mod_lt; lia).
  assert (Ha : N.land (N.shiftr n 10) 0x3FF = n / 1024).
  { change 0x3FF with (N.ones 10). rewrite N.land_ones, N.shiftr_div_pow2.
    change (2 ^ 10) with 1024. apply N.mod_small, Hq. }
  assert (Hb : N.land n 0x3FF = n mod 1024).
  { change 0x3FF with (N.ones 10). rewrite N.land_ones. reflexivity. }
  assert (H1 : s1 = 0xD800 + n / 1024).
  { subst s1. rewrite Ha. change 0xD800 with (54 * 1024). apply lor_high_low, Hq. }
  assert (H2 : s2 = 0xDC00 + n mod 1024).
  { subst s2. rewrite Hb. change 0xDC00 with (55 * 1024). apply lor_high_low, Hr. }
  rewrite H1, H2. unfold is_high_surrogate, is_low_surrogate.
  repeat split; try lia.
  - apply andb_true_intro. split; apply N.leb_le; lia.
  - apply andb_true_intro. split; apply N.leb_le; lia.
  - replace (0xD800 + n / 1024 - 0xD800) with (n / 1024) by lia.
    replace (0xDC00 + n mod 1024 - 0xDC00) with (n mod 1024) by lia.
    rewrite N.shiftl_mul_pow2. change (2 ^ 10) with 1024.
    rewrite lor_high_low by exact Hr.
    pose proof (N.div_mod n 1024 ltac:(lia)). subst n. lia.
Qed.

Lemma scanstring_u h1 h2 h3 h4 rest2 :
  scanstring (backslash :: letter_u :: h1 :: h2 :: h3 :: h4 :: rest2)
  = match hex4 h1 h2 h3 h4 with
    | None => None
    | Some uni =>
        if is_high_surrogate uni then
          match rest2 with
          | a :: b :: tl =>
              if (a =? 92) && (b =? 117) then
                match tl with
                | k1 :: k2 :: k3 :: k4 :: rest3 =>
                    match hex4 k1 k2 k3 k4 with
                    | None => None
                    | Some uni2 =>
                        if is_low_surrogate uni2 then
                          push (0x10000 + N.lor (N.shiftl (uni - 0xD800) 10) (uni2 - 0xDC00))
                               (scanstring rest3)
                        else push uni (scanstring rest2)
                    end
                | _ => None
                end
              else push uni (scanstring rest2)
          | _ => push uni (scanstring rest2)
          end
        else push uni (scanstring rest2)
    end.
Proof. reflexivity. Qed.

(** One escape of a code point that is no high surrogate. *)
Lemma scan_u_escape uni tail :
  uni < 0x10000 -> is_high_surrogate uni = false ->
  scanstring (u_escape uni ++ tail)%list = push uni (scanstring tail).
Proof.
  intros Hlt Hhigh. unfold u_escape. cbn [app].
  rewrite scanstring_u, (hex4_digits uni Hlt), Hhigh. reflexivity.
Qed.

(** The two escapes of a surrogate pair. *)
Lemma scan_u_pair s1 s2 tail :
  s1 < 0x10000 -> s2 < 0x10000 ->
  is_high_surrogate s1 = true -> is_low_surrogate s2 = true ->
  scanstring (u_escape s1 ++ u_escape s2 ++ tail)%list
  = push (0x10000 + N.lor (N.shiftl (s1 - 0xD800) 10) (s2 - 0xDC00)) (scanstring tail).
Proof.
  intros H1 H2 Hhigh Hlow. unfold u_escape. cbn [app].
  rewrite scanstring_u, (hex4_digits s1 H1), Hhigh.
  change ((backslash =? 92) && (letter_u =? 117)) with true. cbv iota.
  rewrite (hex4_digits s2 H2), Hlow. reflexivity.
Qed.

(** One character: the decoder reads back what the encoder wrote. *)
Lemma scan_escape_char c tail :
  PyStr.code_point_ok c = true ->
  scanstring (escape_char c ++ tail)%list = push c (scanstring tail).
Proof.
  unfold PyStr.code_point_ok. intros [Hrange Hsur]%andb_prop.
  apply N.ltb_lt in Hrange. apply negb_true_iff in Hsur.
  unfold escape_char.
  destruct (N.eqb_spec c 34) as [->|H34]; [reflexivity|].
  destruct (N.eqb_spec c 92) as [->|H92]; [reflexivity|].
  destruct (N.eqb_spec c 10) as [->|H10]; [reflexivity|].
  destruct (N.eqb_spec c 13) as [->|H13]; [reflexivity|].
  destruct (N.eqb_spec c 9) as [->|H9]; [reflexivity|].
  destruct (N.eqb_spec c 8) as [->|H8]; [reflexivity|].
  destruct (N.eqb_spec c 12) as [->|H12]; [reflexivity|].
  destruct ((c <? 32) || (126 <? c)) eqn:Hesc.
  - destruct (N.ltb_spec c 0x10000) as [Hbmp|Hastral].
    + apply scan_u_escape; assumption.
    + destruct (surrogate_pair c Hastral Hrange) as (L1 & L2 & Hh & Hl & Hc).
      cbv zeta. rewrite <- app_assoc, scan_u_pair by assumption.
      rewrite Hc. reflexivity.
  - apply orb_false_elim in Hesc as [Hlow _].
    cbn [app scanstring].
    apply N.eqb_neq in H34, H92. rewrite H34, H92, Hlow. reflexivity.
Qed.

Lemma scan_escape s rest :
  PyStr.text_ok s = true ->
  scanstring (escape s ++ dquote :: rest)%list = Some (s, rest).
Proof.
  induction s as [|c s IH]; intros Hok; [reflexivity|].
  cbn [PyStr.text_ok forallb] in Hok. apply andb_prop in Hok as [Hc Hs].
  cbn [escape]. rewrite <- app_assoc, scan_escape_char by exact Hc.
  rewrite IH by exact Hs. reflexivity.
Qed.

Lemma dumps_obj ms : dumps (JObj ms) = (123 :: items ms ++ [125])%list.
Proof. reflexivity. Qed.

Lemma size_obj ms : size (JObj ms) = S (members_size ms).
Proof. reflexivity. Qed.

Lemma json_ok_obj ms : json_ok (JObj ms) = members_ok ms.
Proof. reflexivity. Qed.

Lemma items_cons k x rest :
  items ((k, x) :: rest)
  = (encode_basestring_ascii k ++ [58; 32] ++ dumps x
     ++ match rest with [] => [] | _ => [44; 32] ++ items rest end)%list.
Proof. reflexivity. Qed.

Lemma items_layout k x ms rest :
  (items ((k, x) :: ms) ++ 125 :: rest)%list
  = dquote :: (escape k ++ dquote :: 58 :: 32 :: dumps x ++ after_member ms rest)%list.
Proof.
  rewrite items_cons. unfold encode_basestring_ascii, after_member.
  destruct ms as [|m ms];
    repeat (progress (rewrite <- ?app_assoc, ?app_nil_r; cbn [app])); reflexivity.
Qed.

Lemma skip_ws_dumps x t : skip_ws (dumps x ++ t)%list = (dumps x ++ t)%list.
Proof. destruct x; reflexivity. Qed.

Lemma skip_ws_items m ms t :
  skip_ws (items (m :: ms) ++ t)%list = (items (m :: ms) ++ t)%list.
Proof. destruct m; reflexivity. Qed.

Lemma parse_members_layout fuel key body :
  PyStr.text_ok key = true ->
  parse_members (S fuel) (dquote :: (escape key ++ dquote :: 58 :: 32 :: body)%list)
  = match parse_value fuel (skip_ws body) with
    | Some (v, rest3) =>
        match skip_ws rest3 with
        | c2 :: rest4 =>
            if c2 =? 125 then Some ([(key, v)], rest4)
            else if c2 =? 44 then
              match parse_members fuel (skip_ws rest4) with
              | Some (ms, rest5) => Some ((key, v) :: ms, rest5)
              | None => None
              end
            else None
        | [] => None
        end
    | None => None
    end.
Proof.
  intros Hok. cbn [parse_members]. change (dquote =? 34) with true. cbv iota.
  rewrite scan_escape by exact Hok. reflexivity.
Qed.

Lemma parse_members_items ms :
  Forall (fun kv => json_ok (snd kv) = true -> forall fuel rest, (size (snd kv) <= fuel)%nat ->
            parse_value fuel (dumps (snd kv) ++ rest)%list = Some (snd kv, rest)) ms ->
  members_ok ms = true ->
  forall fuel rest, (members_size ms <= fuel)%nat -> ms <> [] ->
    parse_members fuel (items ms ++ 125 :: rest)%list = Some (ms, rest).
Proof.
  induction 1 as [|[k x] ms Hx _ IHms]; intros Hok fuel rest Hfuel Hne; [congruence|].
  destruct fuel as [|fuel]; [simpl in Hfuel; lia|].
  cbn [members_ok] in Hok. apply andb_prop in Hok as [[Hk Hxok]%andb_prop Hms].
  simpl in Hx. cbn [members_size] in Hfuel.
  rewrite items_layout, parse_members_layout, skip_ws_dumps, Hx by (assumption || lia).
  destruct ms as [|m ms]; [reflexivity|].
  unfold after_member.
  change (skip_ws (44 :: ?t)) with (44 :: t). cbv iota.
  change (44 =? 125) with false. change (44 =? 44) with true. cbv iota.
  change (skip_ws (32 :: ?t)) with (skip_ws t).
  rewrite skip_ws_items, IHms by (assumption || (simpl in *; lia) || congruence).
  reflexivity.
Qed.

(** A value is read back; [rest] is whatever follows in the input. *)
Lemma parse_value_dumps v :
  json_ok v = true ->
  forall fuel rest, (size v <= fuel)%nat ->
    parse_value fuel (dumps v ++ rest)%list = Some (v, rest).
Proof.
  induction v as [s | ms IH] using json_ind; intros Hok fuel rest Hfuel.
  - destruct fuel as [|fuel]; [simpl in Hfuel; lia|].
    cbn [dumps]. unfold encode_basestring_ascii. cbn [app]. rewrite <- app_assoc. cbn [app].
    cbn [parse_value]. change (dquote =? 34) with true. cbv iota.
    rewrite scan_escape by exact Hok. reflexivity.
  - rewrite size_obj in Hfuel. rewrite json_ok_obj in Hok.
    destruct fuel as [|fuel]; [lia|].
    rewrite dumps_obj. cbn [app]. rewrite <- app_assoc. cbn [app].
    destruct ms as [|m ms]; [reflexivity|].
    cbn [parse_value]. change (123 =? 34) with false.
    change (123 =? 123) with true. cbv iota.
    rewrite skip_ws_items.
    pose proof (parse_members_items (m :: ms) IH Hok fuel rest) as Hm.
    destruct m as [k x]. rewrite items_layout in Hm |- *. cbv iota.
    change (dquote =? 125) with false. cbv iota.
    rewrite Hm by (lia || congruence). reflexivity.
Qed.

Lemma length_encode s : (2 <= length (encode_basestring_ascii s))%nat.
Proof.
  unfold encode_basestring_ascii. cbn [length]. rewrite length_app. cbn [length]. lia.
Qed.

Lemma size_le_length v : (size v <= length (dumps v))%nat.
Proof.
  induction v as [s | ms IH] using json_ind.
  - pose proof (length_encode s). simpl size. simpl dumps. lia.
  - rewrite size_obj, dumps_obj. cbn [length]. rewrite length_app. apply le_n_S.
    enough (members_size ms <= length (items ms))%nat by lia.
    induction IH as [|[k x] ms Hx _ IHms]; [simpl; lia|].
    rewrite items_cons, !length_app. cbn [members_size].
    pose proof (length_encode k). simpl in Hx.
    destruct ms as [|m ms]; [simpl; lia|].
    rewrite length_app. cbn [length] in *. lia.
Qed.

(** [json.loads] inverts [json.dumps], also with the line terminator the
    script adds. *)
Lemma loads_dumps v :
  json_ok v = true -> loads (dumps v ++ PyStr.newline)%list = Some v.
Proof.
  intros Hok. unfold loads.
  rewrite skip_ws_dumps, parse_value_dumps; [reflexivity | exact Hok |].
  pose proof (size_le_length v). rewrite length_app. lia.
Qed.

Lemma printable_app a b : printable (a ++ b)%list = printable a && printable b.
Proof. apply forallb_app. Qed.

Lemma printable_u_escape n : printable (u_escape n) = true.
Proof.
  assert (Hd : forall d, d < 16 -> (32 <=? hex_digit d) && (hex_digit d <=? 126) = true).
  { intros d Hd. unfold hex_digit.
    destruct (N.ltb_spec d 10); apply andb_true_intro; split; apply N.leb_le; lia. }
  unfold u_escape, printable. cbn [forallb].
  rewrite !Hd by (apply N.mod_lt; lia). reflexivity.
Qed.

(** Whatever the code point, its replacement is printable ASCII. *)
Lemma printable_escape_char c : printable (escape_char c) = true.
Proof.
  unfold escape_char.
  repeat match goal with
         | |- context [if ?c =? ?k then _ else _] =>
             destruct (N.eqb_spec c k); [reflexivity|]
         end.
  destruct ((c <? 32) || (126 <? c)) eqn:Hesc.
  - destruct (c <? 65536); [apply printable_u_escape|].
    cbv zeta. rewrite printable_app, !printable_u_escape. reflexivity.
  - apply orb_false_elim in Hesc as [Hlo Hhi].
    apply N.ltb_ge in Hlo, Hhi. unfold printable. cbn [forallb].
    rewrite andb_true_r. apply andb_true_intro; split; apply N.leb_le; assumption.
Qed.

Lemma printable_escape s : printable (escape s) = true.
Proof.
  induction s as [|c s IH]; [reflexivity|].
  cbn [escape]. rewrite printable_app, printable_escape_char, IH. reflexivity.
Qed.

Lemma printable_encode s : printable (encode_basestring_ascii s) = true.
Proof.
  unfold encode_basestring_ascii.
  change (printable (dquote :: ?t)) with (printable t).
  rewrite printable_app, printable_escape. reflexivity.
Qed.

(** The output of [json.dumps] is printable ASCII. *)
Lemma printable_dumps v : printable (dumps v) = true.
Proof.
  induction v as [s | ms IH] using json_ind.
  - apply printable_encode.
  - rewrite dumps_obj. change (printable (123 :: ?t)) with (printable t).
    rewrite printable_app.
    enough (printable (items ms) = true) as -> by reflexivity.
    induction IH as [|[k x] ms Hx _ IHms]; [reflexivity|].
    rewrite items_cons, !printable_app, printable_encode. simpl in Hx. rewrite Hx.
    destruct ms as [|m ms]; [reflexivity|].
    rewrite printable_app, IHms. reflexivity.
Qed.

Lemma printable_one_line s : printable s = true -> one_line s = true.
Proof.
  unfold printable, one_line. rewrite !forallb_forall. intros H c Hc.
  specialize (H c Hc). apply andb_prop in H as [H1 H2]. apply N.leb_le in H1.
  apply negb_true_iff, N.eqb_neq. lia.
Qed.

(** A serialised record holds no line break: it is one line. *)
Lemma one_line_dumps v : one_line (dumps v) = true.
Proof. apply printable_one_line, printable_dumps. Qed.

End JsonFacts.

(** ** The script: what a run does to the world *)

Module ScriptFacts.
Import Os Json Script.

Ltac run_script :=
  cbv [main acquire_lock run_sync log_message time_us getpid datetime_now
       datetime_utcnow open_w open_a write flock subprocess_run print
       load_global raise try_except emit set_files get_files read_clock
       mbind M_bind mret M_ret outcome after];
  cbn [files out err events clock_reads fst snd negb].

Ltac tidy := cbv beta iota zeta; cbn [files out err events clock_reads fst snd negb].

Lemma append_after_open_a id data (f : gmap N text) :
  append_to id data (match f !! id with Some _ => f | None => <[id := []]> f end)
  = append_to id data f.
Proof.
  unfold append_to. destruct (f !! id) as [c|] eqn:Hf.
  - rewrite Hf. reflexivity.
  - rewrite lookup_insert_eq, insert_insert_eq. reflexivity.
Qed.

Lemma lock_refused_false env path :
  lock_refused env path = false ->
  unopenable env path = false /\ held env (resolve env path) = false.
Proof. unfold lock_refused. apply orb_false_elim. Qed.

(** A run that cannot open the lock file. *)
Lemma main_unopenable env args w :
  unopenable env (lock args) = true ->
  main env args w =
    (Ok tt,
     mkWorld (files w)
             (out w ++ py "Error: Could not acquire lock" ++ PyStr.newline)
             (err w)
             (events w ++ [EvTime (epoch_us (clock env (clock_reads w)));
                           EvGetpid (pid env);
                           EvNow (local (clock env (S (clock_reads w))));
                           EvOpen (lock args) (py "w");
                           EvPrint Stdout (py "Error: Could not acquire lock")])
             (2 + clock_reads w)).
Proof.
  intros H. run_script. rewrite H. tidy.
  rewrite <- !List.app_assoc. reflexivity.
Qed.

(** A run that opens the lock file and finds the lock held. *)
Lemma main_held env args w :
  unopenable env (lock args) = false ->
  held env (resolve env (lock args)) = true ->
  main env args w =
    (Ok tt,
     mkWorld (<[resolve env (lock args) := []]> (files w))
             (out w ++ py "Error: Could not acquire lock" ++ PyStr.newline)
             (err w)
             (events w ++ [EvTime (epoch_us (clock env (clock_reads w)));
                           EvGetpid (pid env);
                           EvNow (local (clock env (S (clock_reads w))));
                           EvOpen (lock args) (py "w");
                           EvFlock (lock args);
                           EvPrint Stdout (py "Error: Could not acquire lock")])
             (2 + clock_reads w)).
Proof.
  intros Hopen H. run_script. rewrite Hopen. tidy. rewrite H. tidy.
  rewrite <- !List.app_assoc. reflexivity.
Qed.

Lemma main_ok env args w :
  lock_refused env (lock args) = false ->
  returncode (child env (cmd_of args)) = 0 ->
  main env args w =
    (Ok tt,
     let r := clock_reads w in
     let line := record_line env args r (py "info") (py "Sync successful.") in
     mkWorld (append_to (resolve env (log args)) line
                (<[resolve env (lock args) := []]> (files w)))
             (out w ++ (if o args then well_done args ++ PyStr.newline else []))
             (err w)
             (events w ++ [EvTime (epoch_us (clock env r));
                           EvGetpid (pid env);
                           EvNow (local (clock env (1 + r)));
                           EvOpen (lock args) (py "w");
                           EvFlock (lock args);
                           EvRun (cmd_of args);
                           EvNow (local (clock env (2 + r)));
                           EvUtcnow (utc (clock env (3 + r)));
                           EvOpen (log args) (py "a");
                           EvWrite (log args) line]
                       ++ (if o args then [EvPrint Stdout (well_done args)] else []))
             (4 + r)).
Proof.
  intros [Hopen H]%lock_refused_false Hrc. run_script. rewrite Hopen. tidy.
  rewrite H. tidy.
  assert (Hq : (returncode (child env (cmd_of args)) =? 0) = true) by (apply Z.eqb_eq; exact Hrc).
  rewrite Hq. tidy. change (0 =? 0) with true. tidy.
  rewrite append_after_open_a.
  unfold record_line, captured_output. rewrite Hq.
  unfold well_done.
  destruct (o args); tidy;
    rewrite <- ?List.app_assoc, ?List.app_nil_r; reflexivity.
Qed.

Lemma main_fail env args w :
  lock_refused env (lock args) = false ->
  returncode (child env (cmd_of args)) <> 0 ->
  main env args w =
    (Raise (NameError "sys"),
     let r := clock_reads w in
     let rc := returncode (child env (cmd_of args)) in
     let line := record_line env args r (py "error") (failure_message rc) in
     mkWorld (append_to (resolve env (log args)) line
                (<[resolve env (lock args) := []]> (files w)))
             (out w)
             (err w)
             (events w ++ [EvTime (epoch_us (clock env r));
                           EvGetpid (pid env);
                           EvNow (local (clock env (1 + r)));
                           EvOpen (lock args) (py "w");
                           EvFlock (lock args);
                           EvRun (cmd_of args);
                           EvNow (local (clock env (2 + r)));
                           EvUtcnow (utc (clock env (3 + r)));
                           EvOpen (log args) (py "a");
                           EvWrite (log args) line])
             (4 + r)).
Proof.
  intros [Hopen H]%lock_refused_false Hrc. run_script. rewrite Hopen. tidy.
  rewrite H. tidy.
  assert (Hq : (returncode (child env (cmd_of args)) =? 0) = false) by (apply Z.eqb_neq; exact Hrc).
  rewrite Hq. tidy. rewrite Hq. tidy.
  change (existsb (String.eqb "sys") globals) with false. tidy.
  rewrite append_after_open_a.
  unfold record_line, captured_output. rewrite Hq. tidy.
  rewrite <- ?List.app_assoc. reflexivity.
Qed.

(** A run whose lock is refused, whichever way. *)
Lemma main_refused env args w :
  lock_refused env (lock args) = true ->
  exists f evs,
    main env args w =
      (Ok tt,
       mkWorld f (out w ++ py "Error: Could not acquire lock" ++ PyStr.newline) (err w)
               (events w ++ evs) (2 + clock_reads w))
    /\ f = (if unopenable env (lock args) then files w
            else <[resolve env (lock args) := []]> (files w))
    /\ omap (fun e => match e with EvRun c => Some c | _ => None end) evs = []
    /\ omap (fun e => match e with EvWrite p d => Some (p, d) | _ => None end) evs = [].
Proof.
  intros H. unfold lock_refused in H.
  destruct (unopenable env (lock args)) eqn:Hopen.
  - eexists _, _. split; [apply (main_unopenable env args w Hopen)|]. repeat split.
  - cbn [orb] in H. eexists _, _. split; [apply (main_held env args w Hopen H)|].
    repeat split.
Qed.

(** *** What a run leaves behind *)

Lemma omap_write_none path (l : list event) :
  omap (fun e => match e with EvWrite p d => Some (p, d) | _ => None end) l = [] ->
  omap (fun e => match e with
                 | EvWrite p d => if bool_decide (p = path) then Some d else None
                 | _ => None
                 end) l = [].
Proof.
  induction l as [|e l IH]; [reflexivity|].
  destruct e; cbn [omap list_omap]; try exact IH. discriminate.
Qed.

(** A run that passes the lock appends exactly one line to the log. *)
Lemma written_free env args w :
  lock_refused env (lock args) = false ->
  let rc := returncode (child env (cmd_of args)) in
  written (log args) (after env args w)
  = written (log args) w
    ++ [record_line env args (clock_reads w)
          (if rc =? 0 then py "info" else py "error")
          (if rc =? 0 then py "Sync successful." else failure_message rc)].
Proof.
  intros H rc. unfold after, written.
  destruct (Z.eq_dec rc 0) as [E|E].
  - rewrite (main_ok env args w H E). fold rc. rewrite E.
    cbn [snd events]. rewrite !omap_app. cbn [omap list_omap].
    rewrite bool_decide_eq_true_2 by reflexivity.
    destruct (o args); cbn [omap list_omap app]; rewrite ?List.app_nil_r; reflexivity.
  - rewrite (main_fail env args w H E). fold rc.
    apply Z.eqb_neq in E. rewrite E.
    cbn [snd events]. rewrite !omap_app. cbn [omap list_omap].
    rewrite bool_decide_eq_true_2 by reflexivity. reflexivity.
Qed.

(** A run whose lock is refused writes nothing. *)
Lemma written_refused env args w path :
  lock_refused env (lock args) = true ->
  written path (after env args w) = written path w.
Proof.
  intros H. destruct (main_refused env args w H) as (f & evs & Hmain & _ & _ & Hw).
  unfold after, written. rewrite Hmain. cbn [snd events].
  rewrite omap_app, (omap_write_none path evs Hw). apply List.app_nil_r.
Qed.

Lemma runs_free env args w :
  lock_refused env (lock args) = false ->
  runs (after env args w) = runs w ++ [cmd_of args].
Proof.
  intros H. unfold after, runs.
  destruct (Z.eq_dec (returncode (child env (cmd_of args))) 0) as [E|E].
  - rewrite (main_ok env args w H E). cbn [snd events]. rewrite !omap_app.
    destruct (o args); cbn [omap list_omap app]; rewrite ?List.app_nil_r; reflexivity.
  - rewrite (main_fail env args w H E). cbn [snd events]. rewrite !omap_app.
    reflexivity.
Qed.

Lemma runs_refused env args w :
  lock_refused env (lock args) = true -> runs (after env args w) = runs w.
Proof.
  intros H. destruct (main_refused env args w H) as (f & evs & Hmain & _ & Hr & _).
  unfold after, runs. rewrite Hmain. cbn [snd events].
  rewrite omap_app, Hr. apply List.app_nil_r.
Qed.

(** The entry a run builds can be decoded again. *)
Lemma entry_ok env args r status message :
  PyStr.text_ok status = true -> PyStr.text_ok message = true ->
  json_ok (log_entry
             (Datetime.strftime_iso (utc (clock env (3 + r))))
             (unique_id (epoch_us (clock env r)) (pid env))
             status message
             (extra_info args (captured_output (child env (cmd_of args)))
                (local (clock env (1 + r))) (local (clock env (2 + r))))) = true.
Proof.
  intros Hs Hm.
  assert (Hout : PyStr.text_ok (captured_output (child env (cmd_of args))) = true).
  { unfold captured_output. destruct (returncode _ =? 0).
    - apply PyStr.chars_ok.
    - rewrite !PyStr.text_ok_app, !PyStr.chars_ok. reflexivity. }
  unfold log_entry, extra_info, unique_id. cbn [json_ok].
  rewrite !PyStr.text_ok_py, !PyStr.text_ok_app, !PyStrFacts.text_ok_str_int, !PyStr.text_ok_py.
  rewrite DatetimeFacts.text_ok_strftime_iso, !DatetimeFacts.text_ok_strftime_local,
    DatetimeFacts.text_ok_str_timedelta.
  rewrite !PyStr.chars_ok, Hout, Hs, Hm.
  rewrite PyStrFacts.text_ok_join by apply PyStr.text_ok_py.
  reflexivity.
Qed.

Lemma text_ok_failure_message rc : PyStr.text_ok (failure_message rc) = true.
Proof.
  unfold failure_message.
  destruct (rc =? 1); [apply PyStr.text_ok_py|].
  destruct (rc =? 2); [apply PyStr.text_ok_py|].
  rewrite PyStr.text_ok_app, PyStr.text_ok_py, PyStrFacts.text_ok_str_int. reflexivity.
Qed.

(** The last record of the log, decoded, is the entry the run built. *)
Lemma last_record_free env args w :
  lock_refused env (lock args) = false ->
  let rc := returncode (child env (cmd_of args)) in
  let r := clock_reads w in
  last_record (log args) (after env args w)
  = Some (log_entry
            (Datetime.strftime_iso (utc (clock env (3 + r))))
            (unique_id (epoch_us (clock env r)) (pid env))
            (if rc =? 0 then py "info" else py "error")
            (if rc =? 0 then py "Sync successful." else failure_message rc)
            (extra_info args (captured_output (child env (cmd_of args)))
               (local (clock env (1 + r))) (local (clock env (2 + r))))).
Proof.
  intros H rc r. unfold last_record.
  rewrite (written_free env args w H), last_snoc.
  unfold record_line. apply JsonFacts.loads_dumps.
  apply entry_ok.
  - destruct (_ =? 0); apply PyStr.text_ok_py.
  - destruct (_ =? 0); [apply PyStr.text_ok_py | apply text_ok_failure_message].
Qed.

Lemma spec_classify_status rc :
  fst (spec_classify rc) = if rc =? 0 then py "info" else py "error".
Proof.
  unfold spec_classify.
  destruct (rc =? 0), (rc =? 1), (rc =? 2); reflexivity.
Qed.

Lemma spec_classify_message rc :
  snd (spec_classify rc) = if rc =? 0 then py "Sync successful." else failure_message rc.
Proof.
  unfold spec_classify, failure_message.
  destruct (rc =? 0), (rc =? 1), (rc =? 2); reflexivity.
Qed.

(** [log_message] in one step: one clock reading, one line appended. *)
Lemma log_message_spec env f uid status message extra w :
  log_message env f uid status message extra w =
    (Ok tt,
     let line := dumps (log_entry (Datetime.strftime_iso (utc (clock env (clock_reads w))))
                          uid status message extra) ++ PyStr.newline in
     mkWorld (append_to (resolve env f) line (files w)) (out w) (err w)
             (events w ++ [EvUtcnow (utc (clock env (clock_reads w)));
                           EvOpen f (py "a");
                           EvWrite f line])
             (S (clock_reads w))).
Proof.
  run_script. rewrite append_after_open_a, <- !List.app_assoc. reflexivity.
Qed.

Lemma append_to_lookup id data (f : gmap N text) :
  append_to id data f !! id = Some (default [] (f !! id) ++ data).
Proof. apply lookup_insert_eq. Qed.

Lemma append_to_other id data (f : gmap N text) other :
  other <> id -> append_to id data f !! other = f !! other.
Proof. intros H. apply lookup_insert_ne. congruence. Qed.

(** The files of the world a run leaves. *)
Lemma files_after env args w :
  exists line,
    files (after env args w)
    = if unopenable env (lock args) then files w
      else if held env (resolve env (lock args))
           then <[resolve env (lock args) := []]> (files w)
           else append_to (resolve env (log args)) line
                  (<[resolve env (lock args) := []]> (files w)).
Proof.
  unfold after. destruct (unopenable env (lock args)) eqn:Hopen.
  - exists []. rewrite (main_unopenable env args w Hopen). reflexivity.
  - destruct (held env (resolve env (lock args))) eqn:Hheld.
    + exists []. rewrite (main_held env args w Hopen Hheld). reflexivity.
    + assert (Hfree : lock_refused env (lock args) = false)
        by (unfold lock_refused; rewrite Hopen, Hheld; reflexivity).
      destruct (Z.eq_dec (returncode (child env (cmd_of args))) 0) as [E|E].
      * rewrite (main_ok env args w Hfree E). eexists. reflexivity.
      * rewrite (main_fail env args w Hfree E). eexists. reflexivity.
Qed.

(** The log file and the write events of a run that passed the lock, when
    the lock file is another file. *)
Lemma log_after_free env args w :
  lock_refused env (lock args) = false ->
  resolve env (lock args) <> resolve env (log args) ->
  exists body,
    printable body = true
    /\ written (log args) (after env args w)
       = written (log args) w ++ [body ++ PyStr.newline]
    /\ files (after env args w) !! resolve env (log args)
       = Some (default [] (files w !! resolve env (log args)) ++ body ++ PyStr.newline).
Proof.
  intros Hfree Hne. eexists. split; [apply JsonFacts.printable_dumps|]. split.
  - apply (written_free env args w Hfree).
  - unfold after.
    destruct (Z.eq_dec (returncode (child env (cmd_of args))) 0) as [E|E].
    + rewrite (main_ok env args w Hfree E). cbn [snd files]. cbv zeta.
      rewrite append_to_lookup, lookup_insert_ne by exact Hne.
      apply Z.eqb_eq in E. rewrite E. reflexivity.
    + rewrite (main_fail env args w Hfree E). cbn [snd files]. cbv zeta.
      rewrite append_to_lookup, lookup_insert_ne by exact Hne.
      apply Z.eqb_neq in E. rewrite E. reflexivity.
Qed.

End ScriptFacts.

(** * Sanity checks of the embedding *)

Example str_int_13 : PyStr.str_int 13 = py "13". Proof. reflexivity. Qed.
Example str_int_0 : PyStr.str_int 0 = py "0". Proof. reflexivity. Qed.
Example str_int_neg : PyStr.str_int (-9) = py "-9". Proof. reflexivity. Qed.
Example join_ex :
  PyStr.join (py " ") [py "--delete"; py "--dryrun"] = py "--delete --dryrun".
Proof. reflexivity. Qed.
Example td_ex : Datetime.str_timedelta 3723000001 = py "1:02:03.000001".
Proof. reflexivity. Qed.
Example td_neg : Datetime.str_timedelta (-3585000000) = py "-1 day, 23:00:15".
Proof. reflexivity. Qed.
Example strftime_ex :
  Datetime.strftime_iso (Datetime.mk_datetime 2024 3 7 9 5 0 12) = py "2024-03-07T09:05:00Z".
Proof. reflexivity. Qed.
Example sub_ex :
  Datetime.sub (Datetime.mk_datetime 2024 3 1 0 0 0 0) (Datetime.mk_datetime 2024 2 28 23 59 59 0)
  = 86401000000.
Proof. reflexivity. Qed.
Example escape_ex :
  Json.escape [0x2192%N; 0x1F600%N; 10%N; 127%N]
  = (92%N :: py "u2192") ++ (92%N :: py "ud83d") ++ (92%N :: py "ude00")
    ++ (92%N :: py "n") ++ (92%N :: py "u007f").
Proof. vm_compute. reflexivity. Qed.
Example loads_ex :
  let v := Json.JObj [(py "a", Json.JStr [0x2192%N; 0x1F600%N; 0xDC80%N; 34%N; 255%N]);
                      (py "b", Json.JObj [(py "c", Json.JStr PyStr.newline)]);
                      (py "e", Json.JObj [])] in
  Json.loads (Json.dumps v ++ PyStr.newline) = Some v.
Proof. vm_compute. reflexivity. Qed.

(** * The claims *)

Import Datetime Os Json Script.

(** C1. The outcome classification depends on the exit code alone: for every
    run of the external command, the status and the message of the entry
    logged are those of the specification's table at the exit code: 0 gives
    [info] and "Sync successful.", 1 and 2 give [error] with their fixed
    messages, any other code N gives [error] and "Sync failed with exit
    code N". *)
Theorem C1_classification_by_exit_code env args w :
  lock_refused env (lock args) = false ->
  let rc := returncode (child env (cmd_of args)) in
  (exists entry,
     last_record (log args) (after env args w) = Some entry
     /\ str_field "status" entry = Some (fst (spec_classify rc))
     /\ str_field "message" entry = Some (snd (spec_classify rc)))
  /\ (rc = 0 -> spec_classify rc = (py "info", py "Sync successful."))
  /\ (rc = 1 -> spec_classify rc
                = (py "error", py "Sync failed due to a general error, exit code 1"))
  /\ (rc = 2 -> spec_classify rc
                = (py "error", py "Sync failed due to a permission error, exit code 2"))
  /\ (rc <> 0 -> rc <> 1 -> rc <> 2 ->
      spec_classify rc
      = (py "error", py "Sync failed with exit code " ++ PyStr.str_int rc)).
Proof.
  intros Hfree rc. split.
  - eexists. split; [apply ScriptFacts.last_record_free, Hfree|].
    fold rc. rewrite ScriptFacts.spec_classify_status, ScriptFacts.spec_classify_message.
    split; reflexivity.
  - repeat split.
    + intros ->. reflexivity.
    + intros ->. reflexivity.
    + intros ->. reflexivity.
    + intros H0 H1 H2. unfold spec_classify.
      apply Z.eqb_neq in H0, H1, H2. rewrite H0, H1, H2. reflexivity.
Qed.

Lemma C1_witness :
  lock_refused (Demo.env_free 13) (lock Demo.args_default) = false
  /\ exists entry,
       last_record (log Demo.args_default)
         (after (Demo.env_free 13) Demo.args_default Demo.world_fresh) = Some entry
       /\ str_field "status" entry = Some (py "error")
       /\ str_field "message" entry = Some (py "Sync failed with exit code 13").
Proof.
  split; [reflexivity|].
  exact (proj1 (C1_classification_by_exit_code (Demo.env_free 13) Demo.args_default
                  Demo.world_fresh eq_refl)).
Defined.

(** C2, as the specification states it, fails on the code: the duration is the
    difference of two readings of the local wall clock, and the clock can be
    set back between them.  In the night the clocks go back an hour, a
    successful run of fifteen seconds logs the duration "-1 day, 23:00:15". *)
Lemma C2_duration_negative_counterexample :
  lock_refused Demo.env_fallback (lock Demo.args_default) = false
  /\ returncode (child Demo.env_fallback (cmd_of Demo.args_default)) = 0
  /\ success_logged Demo.env_fallback Demo.args_default Demo.world_fresh
  /\ Datetime.str_timedelta
       (Datetime.sub (end_reading Demo.env_fallback Demo.world_fresh)
                     (start_reading Demo.env_fallback Demo.world_fresh))
     = py "-1 day, 23:00:15"
  /\ ~ duration_nonneg Demo.env_fallback Demo.world_fresh.
Proof.
  split; [reflexivity|]. split; [reflexivity|]. split; [|split].
  - eexists. split.
    { rewrite (ScriptFacts.written_free Demo.env_fallback Demo.args_default
                 Demo.world_fresh eq_refl).
      reflexivity. }
    repeat split.
  - reflexivity.
  - unfold duration_nonneg. vm_compute. intros H. apply H. reflexivity.
Qed.

(** C2, amended. For every run in which the external command exits with 0,
    exactly one entry is appended to the log, a single line, with status
    [info], message "Sync successful." and a duration equal to the end reading
    minus the start reading; that difference is non-negative whenever the end
    reading is not earlier than the start reading. *)
Theorem C2_success_logged_once env args w :
  lock_refused env (lock args) = false ->
  returncode (child env (cmd_of args)) = 0 ->
  success_logged env args w
  /\ (exists entry,
        written (log args) (after env args w)
          = written (log args) w ++ [dumps entry ++ PyStr.newline]
        /\ one_line (dumps entry) = true)
  /\ (Datetime.valid (start_reading env w) = true ->
      Datetime.valid (end_reading env w) = true ->
      Datetime.le (start_reading env w) (end_reading env w) = true ->
      duration_nonneg env w).
Proof.
  intros Hfree Hrc. split; [|split].
  - eexists. split.
    { rewrite (ScriptFacts.written_free _ _ _ Hfree), Hrc. reflexivity. }
    repeat split.
  - eexists. split.
    + rewrite (ScriptFacts.written_free _ _ _ Hfree). reflexivity.
    + apply JsonFacts.one_line_dumps.
  - intros Vs Ve Hle. apply DatetimeFacts.sub_nonneg; assumption.
Qed.

Lemma C2_witness :
  success_logged (Demo.env_free 0) Demo.args_default Demo.world_fresh
  /\ duration_nonneg (Demo.env_free 0) Demo.world_fresh.
Proof.
  pose proof (C2_success_logged_once (Demo.env_free 0) Demo.args_default
                Demo.world_fresh eq_refl eq_refl) as [H1 [_ H3]].
  split; [exact H1 | exact (H3 eq_refl eq_refl eq_refl)].
Defined.

(** C3, as stated, fails on the code when the lock path names the log file
    (here by another spelling of its path): line 41 opens the lock path for
    writing before [flock] is tried, so the log file is emptied although the
    lock is held. *)
Lemma C3_same_file_counterexample :
  lock_refused Demo.env_held (lock Demo.args_alias) = true
  /\ lock Demo.args_alias <> log Demo.args_alias
  /\ files Demo.world_logged !! resolve Demo.env_held (log Demo.args_alias)
     = Some Demo.old_log
  /\ files (after Demo.env_held Demo.args_alias Demo.world_logged)
       !! resolve Demo.env_held (log Demo.args_alias)
     = Some []
  /\ ~ (lock_failure_stops Demo.env_held Demo.args_alias Demo.world_logged
        /\ log_file_unchanged Demo.env_held Demo.args_alias Demo.world_logged).
Proof.
  split; [reflexivity|]. split; [discriminate|]. split; [reflexivity|].
  split; [vm_compute; reflexivity|].
  intros [_ Hfiles]. unfold log_file_unchanged in Hfiles.
  vm_compute in Hfiles. discriminate Hfiles.
Qed.

(** C3, amended. For every run in which the lock cannot be taken (the lock
    file cannot be opened, or another process holds the lock), the pipeline
    stops before the command and the log: nothing is spawned, nothing is
    written to the log, "Error: Could not acquire lock" is printed on standard
    output, nothing on standard error, and the process ends with status 0.
    The log file is unchanged whenever the lock path and the log path name
    different files, or the lock file could not be opened. *)
Theorem C3_lock_failure_stops_pipeline env args w :
  lock_refused env (lock args) = true ->
  lock_failure_stops env args w
  /\ (unopenable env (lock args) = true
      \/ resolve env (lock args) <> resolve env (log args) ->
      log_file_unchanged env args w).
Proof.
  intros Hrefused. split.
  - unfold lock_failure_stops.
    split; [apply ScriptFacts.runs_refused, Hrefused|].
    split; [apply ScriptFacts.written_refused, Hrefused|].
    destruct (ScriptFacts.main_refused env args w Hrefused) as (f & evs & Hmain & _).
    unfold after, outcome. rewrite Hmain. repeat split.
  - intros Hcase. unfold log_file_unchanged.
    destruct (ScriptFacts.files_after env args w) as [line ->].
    destruct (unopenable env (lock args)) eqn:Hopen; [reflexivity|].
    destruct Hcase as [Habs | Hne]; [discriminate|].
    unfold lock_refused in Hrefused. rewrite Hopen in Hrefused. cbn [orb] in Hrefused.
    rewrite Hrefused. apply lookup_insert_ne, Hne.
Qed.

Lemma C3_witness :
  lock_failure_stops Demo.env_held Demo.args_default Demo.world_logged
  /\ log_file_unchanged Demo.env_held Demo.args_default Demo.world_logged.
Proof.
  destruct (C3_lock_failure_stops_pipeline Demo.env_held Demo.args_default
              Demo.world_logged eq_refl) as [Hstop Hfile].
  split; [exact Hstop|]. apply Hfile. right. vm_compute. discriminate.
Defined.

(** C4 is what the code attempts and misses: line 84 names [sys], which the
    script never imports.  In every run in which the command exits non-zero
    the error entry is written to the log, then [NameError] is raised while
    the arguments of [print] are evaluated: nothing is printed on standard
    error and the process dies with status 1. *)
Theorem C4_error_report_not_printed env args w :
  lock_refused env (lock args) = false ->
  returncode (child env (cmd_of args)) <> 0 ->
  outcome env args w = Raise (NameError "sys")
  /\ err (after env args w) = err w
  /\ out (after env args w) = out w
  /\ (exists line,
        written (log args) (after env args w) = written (log args) w ++ [line])
  /\ exit_status (outcome env args w) = 1.
Proof.
  intros Hfree Hrc.
  split; [|split; [|split; [|split]]].
  - unfold outcome. rewrite (ScriptFacts.main_fail env args w Hfree Hrc). reflexivity.
  - unfold after. rewrite (ScriptFacts.main_fail env args w Hfree Hrc). reflexivity.
  - unfold after. rewrite (ScriptFacts.main_fail env args w Hfree Hrc). reflexivity.
  - eexists. apply (ScriptFacts.written_free env args w Hfree).
  - unfold outcome. rewrite (ScriptFacts.main_fail env args w Hfree Hrc). reflexivity.
Qed.

Lemma C4_failing_run :
  outcome (Demo.env_free 1) Demo.args_default Demo.world_fresh = Raise (NameError "sys")
  /\ err (after (Demo.env_free 1) Demo.args_default Demo.world_fresh) = [].
Proof.
  destruct (C4_error_report_not_printed (Demo.env_free 1) Demo.args_default
              Demo.world_fresh eq_refl) as (H1 & H2 & _).
  - discriminate.
  - split; [exact H1 | exact H2].
Defined.

(** C5, as stated, fails on the code: [start_time] is read on line 37, before
    the lock file is opened and locked (lines 41-42), not between the lock and
    the spawn.  No run has the effects in the order the specification
    gives. *)
Lemma C5_start_read_before_lock_counterexample :
  lock_refused (Demo.env_free 0) (lock Demo.args_default) = false
  /\ events (after (Demo.env_free 0) Demo.args_default Demo.world_fresh)
     = [EvTime 1709802300000000; EvGetpid 4242; EvNow Demo.morning;
        EvOpen (py "/var/lock/aws_s3_sync.lock") (py "w");
        EvFlock (py "/var/lock/aws_s3_sync.lock");
        EvRun [py "aws"; py "s3"; py "sync"; py "/data"; py "s3://bucket/data";
               py "--delete"; py "--dryrun"];
        EvNow Demo.later; EvUtcnow Demo.later;
        EvOpen (py "/var/log/aws_s3_sync.log") (py "a");
        EvWrite (py "/var/log/aws_s3_sync.log")
          (record_line (Demo.env_free 0) Demo.args_default 0
             (py "info") (py "Sync successful."));
        EvPrint Stdout
          (py "Well done. Source directory: /data. Details: /var/log/aws_s3_sync.log")]
  /\ ~ timed_around_spawn (Demo.env_free 0) Demo.args_default Demo.world_fresh.
Proof.
  split; [reflexivity|]. split.
  - vm_compute. reflexivity.
  - intros (s & e & entry & Htiming & _).
    vm_compute in Htiming. discriminate Htiming.
Qed.

(** C5, amended. For every run that passes the lock, [start_time] is read
    before the lock file is opened and locked, [end_time] immediately after the
    command has exited; between the two readings lie the opening of the lock
    file, the lock and the command, and the logged duration is the second
    reading minus the first: it covers the lock acquisition and the run of the
    command. *)
Theorem C5_duration_spans_lock_and_command env args w :
  lock_refused env (lock args) = false ->
  exists pre post entry,
    events (after env args w)
    = events w ++ pre
      ++ [EvNow (start_reading env w);
          EvOpen (lock args) (py "w");
          EvFlock (lock args);
          EvRun (cmd_of args);
          EvNow (end_reading env w)]
      ++ post
    /\ pre = [EvTime (epoch_us (clock env (clock_reads w))); EvGetpid (pid env)]
    /\ last_record (log args) (after env args w) = Some entry
    /\ extra_field "start_time" entry
       = Some (Datetime.strftime_local (start_reading env w))
    /\ extra_field "end_time" entry
       = Some (Datetime.strftime_local (end_reading env w))
    /\ extra_field "duration" entry
       = Some (Datetime.str_timedelta
                 (Datetime.sub (end_reading env w) (start_reading env w))).
Proof.
  intros Hfree. unfold start_reading, end_reading.
  destruct (Z.eq_dec (returncode (child env (cmd_of args))) 0) as [E|E].
  - exists [EvTime (epoch_us (clock env (clock_reads w))); EvGetpid (pid env)].
    exists ([EvUtcnow (utc (clock env (3 + clock_reads w)));
             EvOpen (log args) (py "a");
             EvWrite (log args)
               (record_line env args (clock_reads w) (py "info") (py "Sync successful."))]
            ++ (if o args then [EvPrint Stdout (well_done args)] else [])).
    eexists. split; [|split; [reflexivity|split]].
    + unfold after. rewrite (ScriptFacts.main_ok env args w Hfree E). reflexivity.
    + apply (ScriptFacts.last_record_free env args w Hfree).
    + repeat split.
  - exists [EvTime (epoch_us (clock env (clock_reads w))); EvGetpid (pid env)].
    exists [EvUtcnow (utc (clock env (3 + clock_reads w)));
            EvOpen (log args) (py "a");
            EvWrite (log args)
              (record_line env args (clock_reads w) (py "error")
                 (failure_message (returncode (child env (cmd_of args)))))].
    eexists. split; [|split; [reflexivity|split]].
    + unfold after. rewrite (ScriptFacts.main_fail env args w Hfree E). reflexivity.
    + apply (ScriptFacts.last_record_free env args w Hfree).
    + repeat split.
Qed.

Lemma C5_witness :
  exists entry,
    last_record (log Demo.args_default)
      (after (Demo.env_free 0) Demo.args_default Demo.world_fresh) = Some entry
    /\ extra_field "duration" entry = Some (py "1:02:03.000001").
Proof.
  destruct (C5_duration_spans_lock_and_command (Demo.env_free 0) Demo.args_default
              Demo.world_fresh eq_refl)
    as (pre & post & entry & _ & _ & Hrec & _ & _ & Hdur).
  exists entry. split; [exact Hrec | exact Hdur].
Defined.

(** C6. Every record the script emits, parsed back with [json.loads], gives
    the entry that was serialised: the five top-level fields in the order
    timestamp, unique_id, status, message, extra_info, and inside extra_info
    the seven fields source, destination, options, sync_output, start_time,
    end_time, duration, each with the value the run gave it, whatever code
    points the arguments and the output of the command hold. *)
Theorem C6_log_record_round_trip env args w :
  lock_refused env (lock args) = false ->
  exists line timestamp uid status message output,
    written (log args) (after env args w) = written (log args) w ++ [line]
    /\ loads line
       = Some (JObj [
           (py "timestamp", JStr timestamp);
           (py "unique_id", JStr uid);
           (py "status", JStr status);
           (py "message", JStr message);
           (py "extra_info", JObj [
              (py "source", JStr (PyStr.chars (source args)));
              (py "destination", JStr (PyStr.chars (destination args)));
              (py "options",
               JStr (PyStr.join (py " ") (map PyStr.chars (sync_options args))));
              (py "sync_output", JStr output);
              (py "start_time", JStr (Datetime.strftime_local (start_reading env w)));
              (py "end_time", JStr (Datetime.strftime_local (end_reading env w)));
              (py "duration", JStr (Datetime.str_timedelta
                 (Datetime.sub (end_reading env w) (start_reading env w)))) ]) ])
    /\ timestamp = Datetime.strftime_iso (utc (clock env (3 + clock_reads w)))
    /\ uid = unique_id (epoch_us (clock env (clock_reads w))) (pid env)
    /\ (status, message) = spec_classify (returncode (child env (cmd_of args)))
    /\ output = captured_output (child env (cmd_of args)).
Proof.
  intros Hfree.
  pose proof (ScriptFacts.last_record_free env args w Hfree) as Hlast.
  unfold last_record in Hlast.
  rewrite (ScriptFacts.written_free env args w Hfree), last_snoc in Hlast.
  eexists _, _, _, _, _, _. split; [apply (ScriptFacts.written_free env args w Hfree)|].
  split; [exact Hlast|].
  split; [reflexivity|]. split; [reflexivity|]. split; [|reflexivity].
  rewrite (surjective_pairing (spec_classify _)).
  rewrite ScriptFacts.spec_classify_status, ScriptFacts.spec_classify_message.
  reflexivity.
Qed.

Lemma C6_witness :
  exists line entry,
    written (log Demo.args_default)
      (after (Demo.env_free 2) Demo.args_default Demo.world_fresh) = [line]
    /\ loads line = Some entry
    /\ keys entry = [py "timestamp"; py "unique_id"; py "status"; py "message";
                     py "extra_info"]
    /\ option_map keys (field (py "extra_info") entry)
       = Some [py "source"; py "destination"; py "options"; py "sync_output";
               py "start_time"; py "end_time"; py "duration"]
    /\ extra_field "sync_output" entry
       = Some (py "upload: a.txt " ++ [0x2192%N; 0x1F600%N] ++ py " s3" ++ PyStr.newline
               ++ py "warning: b.txt skipped").
Proof.
  destruct (C6_log_record_round_trip (Demo.env_free 2) Demo.args_default
              Demo.world_fresh eq_refl)
    as (line & ts & uid & st & msg & output & Hw & Hl & _ & _ & _ & Hout).
  exists line. eexists. split; [exact Hw|]. split; [exact Hl|].
  split; [reflexivity|]. split; [reflexivity|].
  rewrite Hout. reflexivity.
Defined.

(** C7. The invocation id is the microsecond timestamp, a dash and the
    process id; two runs whose timestamps differ or whose process ids differ
    log different invocation ids. *)
Theorem C7_invocation_ids_distinct env1 args1 w1 env2 args2 w2 :
  lock_refused env1 (lock args1) = false ->
  lock_refused env2 (lock args2) = false ->
  let t1 := epoch_us (clock env1 (clock_reads w1)) in
  let t2 := epoch_us (clock env2 (clock_reads w2)) in
  (t1 <> t2 \/ pid env1 <> pid env2) ->
  exists entry1 entry2 id1 id2,
    last_record (log args1) (after env1 args1 w1) = Some entry1
    /\ last_record (log args2) (after env2 args2 w2) = Some entry2
    /\ str_field "unique_id" entry1 = Some id1
    /\ str_field "unique_id" entry2 = Some id2
    /\ id1 = PyStr.str_int t1 ++ py "-" ++ PyStr.str_int (Z.of_N (pid env1))
    /\ id2 = PyStr.str_int t2 ++ py "-" ++ PyStr.str_int (Z.of_N (pid env2))
    /\ id1 <> id2.
Proof.
  intros H1 H2 t1 t2 Hdiff.
  eexists _, _, _, _.
  split; [apply (ScriptFacts.last_record_free env1 args1 w1 H1)|].
  split; [apply (ScriptFacts.last_record_free env2 args2 w2 H2)|].
  split; [reflexivity|]. split; [reflexivity|].
  split; [reflexivity|]. split; [reflexivity|].
  intros Heq. apply PyStrFacts.unique_id_inj in Heq. tauto.
Qed.

Lemma C7_witness :
  exists id1 id2,
    id1 = py "1709802300000000-4242" /\ id2 = py "1709802300000000-4243" /\ id1 <> id2.
Proof.
  destruct (C7_invocation_ids_distinct (Demo.env_free 0) Demo.args_default Demo.world_fresh
              (mkEnv Demo.clock_plain 4243 Demo.resolve_paths (fun _ => false)
                     (fun _ => false) (Demo.child_exits 0))
              Demo.args_default Demo.world_fresh eq_refl eq_refl)
    as (e1 & e2 & id1 & id2 & _ & _ & _ & _ & Hid1 & Hid2 & Hne).
  - right. discriminate.
  - exists id1, id2. split; [exact Hid1|]. split; [exact Hid2 | exact Hne].
Defined.

(** C8, as stated, fails on the code when the lock path names the log file:
    opening the lock file for writing (line 41) empties the log before the new
    entry is appended, so the earlier entries are lost. *)
Lemma C8_same_file_counterexample :
  lock_refused (Demo.env_free 0) (lock Demo.args_alias) = false
  /\ lock Demo.args_alias <> log Demo.args_alias
  /\ files Demo.world_logged !! resolve (Demo.env_free 0) (log Demo.args_alias)
     = Some Demo.old_log
  /\ files (after (Demo.env_free 0) Demo.args_alias Demo.world_logged)
       !! resolve (Demo.env_free 0) (log Demo.args_alias)
     = Some (record_line (Demo.env_free 0) Demo.args_alias 0
               (py "info") (py "Sync successful."))
  /\ ~ log_prefix_kept (Demo.env_free 0) Demo.args_alias Demo.world_logged.
Proof.
  split; [reflexivity|]. split; [discriminate|]. split; [reflexivity|]. split.
  - vm_compute. reflexivity.
  - intros H. destruct (H Demo.old_log eq_refl) as [suffix Hs].
    vm_compute in Hs. discriminate Hs.
Qed.

(** C8, amended. Every call of the record operation on the log makes one
    write, of one self-contained line, after the content the file had, and
    changes no other file; and for every run whose lock path and log path
    name different files, what the log file held before the run is a prefix
    of what it holds after. *)
Theorem C8_log_append_only env args w :
  (forall uid status message extra w0,
     exists record,
       let w1 := snd (log_message env (log args) uid status message extra w0) in
       one_line record = true
       /\ record = dumps (log_entry
                            (Datetime.strftime_iso (utc (clock env (clock_reads w0))))
                            uid status message extra)
       /\ written (log args) w1 = written (log args) w0 ++ [record ++ PyStr.newline]
       /\ writes w1 = writes w0 ++ [(log args, record ++ PyStr.newline)]
       /\ files w1 !! resolve env (log args)
          = Some (default [] (files w0 !! resolve env (log args))
                  ++ record ++ PyStr.newline)
       /\ forall other, other <> resolve env (log args) ->
            files w1 !! other = files w0 !! other)
  /\ (resolve env (lock args) <> resolve env (log args) -> log_prefix_kept env args w).
Proof.
  split.
  - intros uid status message extra w0. eexists.
    rewrite ScriptFacts.log_message_spec. cbn [snd files events]. cbv zeta.
    split; [apply JsonFacts.one_line_dumps|].
    split; [reflexivity|].
    split; [|split; [|split]].
    + unfold written. cbn [events]. rewrite omap_app. cbn [omap list_omap].
      rewrite bool_decide_eq_true_2 by reflexivity. reflexivity.
    + unfold writes. cbn [events]. rewrite omap_app. reflexivity.
    + apply ScriptFacts.append_to_lookup.
    + intros other Ho. apply ScriptFacts.append_to_other, Ho.
  - intros Hne old Hold.
    destruct (ScriptFacts.files_after env args w) as [line ->].
    destruct (unopenable env (lock args)).
    { exists []. rewrite app_nil_r. exact Hold. }
    destruct (held env (resolve env (lock args))).
    + exists []. rewrite lookup_insert_ne by exact Hne.
      rewrite app_nil_r. exact Hold.
    + exists line. rewrite ScriptFacts.append_to_lookup, lookup_insert_ne by exact Hne.
      rewrite Hold. reflexivity.
Qed.

Lemma C8_witness :
  log_prefix_kept (Demo.env_free 0) Demo.args_default Demo.world_logged.
Proof.
  apply (C8_log_append_only (Demo.env_free 0) Demo.args_default Demo.world_logged).
  vm_compute. discriminate.
Defined.

(** C9. For every run that passes the lock, the external command is run
    exactly once, with the vector aws, s3, sync, source, destination and then
    the caller's extra arguments in their order; the exit code it returns is
    the one classified, and the output it leaves is the one logged. *)
Theorem C9_command_spawned_once env args w :
  lock_refused env (lock args) = false ->
  let cmd := [py "aws"; py "s3"; py "sync";
              PyStr.chars (source args); PyStr.chars (destination args)]
             ++ map PyStr.chars (sync_options args) in
  runs (after env args w) = runs w ++ [cmd]
  /\ exists entry,
       last_record (log args) (after env args w) = Some entry
       /\ str_field "status" entry = Some (fst (spec_classify (returncode (child env cmd))))
       /\ str_field "message" entry = Some (snd (spec_classify (returncode (child env cmd))))
       /\ extra_field "sync_output" entry = Some (captured_output (child env cmd))
       /\ extra_field "options" entry
          = Some (PyStr.join (py " ") (map PyStr.chars (sync_options args))).
Proof.
  intros Hfree cmd. split; [apply (ScriptFacts.runs_free env args w Hfree)|].
  eexists. split; [apply (ScriptFacts.last_record_free env args w Hfree)|].
  change (cmd_of args) with cmd.
  rewrite ScriptFacts.spec_classify_status, ScriptFacts.spec_classify_message.
  repeat split.
Qed.

Lemma C9_witness :
  runs (after (Demo.env_free 2) Demo.args_default Demo.world_fresh)
  = [[py "aws"; py "s3"; py "sync"; py "/data"; py "s3://bucket/data";
      py "--delete"; py "--dryrun"]].
Proof.
  exact (proj1 (C9_command_spawned_once (Demo.env_free 2) Demo.args_default
                  Demo.world_fresh eq_refl)).
Defined.

(** C10. For every run in which the command exits with 0, its standard error
    is discarded: the logged sync_output is its standard output alone, and the
    run leaves the same world whatever the standard error was.  When the
    command exits non-zero, sync_output is the standard output, a line break
    and the standard error. *)
Theorem C10_sync_output_by_exit_code env args w :
  lock_refused env (lock args) = false ->
  let p := child env (cmd_of args) in
  (exists entry,
     last_record (log args) (after env args w) = Some entry
     /\ extra_field "sync_output" entry
        = Some (if returncode p =? 0 then PyStr.chars (stdout p)
                else PyStr.chars (stdout p) ++ PyStr.newline ++ PyStr.chars (stderr p)))
  /\ (returncode p = 0 ->
      forall data, main (with_stderr env data) args w = main env args w).
Proof.
  intros Hfree p. split.
  - eexists. split; [apply (ScriptFacts.last_record_free env args w Hfree)|].
    reflexivity.
  - intros Hrc data.
    rewrite (ScriptFacts.main_ok env args w Hfree Hrc).
    rewrite (ScriptFacts.main_ok (with_stderr env data) args w Hfree Hrc).
    unfold record_line, captured_output, with_stderr.
    cbn [child returncode stdout stderr clock pid resolve]. fold p. rewrite Hrc.
    reflexivity.
Qed.

Lemma C10_witness :
  (exists entry,
     last_record (log Demo.args_default)
       (after (Demo.env_free 0) Demo.args_default Demo.world_fresh) = Some entry
     /\ extra_field "sync_output" entry = Some (PyStr.chars Demo.arrow_line))
  /\ (exists entry,
        last_record (log Demo.args_default)
          (after (Demo.env_free 2) Demo.args_default Demo.world_fresh) = Some entry
        /\ extra_field "sync_output" entry
           = Some (PyStr.chars Demo.arrow_line ++ PyStr.newline
                   ++ py "warning: b.txt skipped")).
Proof.
  split.
  - exact (proj1 (C10_sync_output_by_exit_code (Demo.env_free 0) Demo.args_default
                    Demo.world_fresh eq_refl)).
  - exact (proj1 (C10_sync_output_by_exit_code (Demo.env_free 2) Demo.args_default
                    Demo.world_fresh eq_refl)).
Defined.

(** * Further properties of the script *)





(** X3. The script itself opens no path but the lock path, for writing, and
    the log path, for appending, and writes to no path but the log path
    (what the command it runs does to files is the command's own). *)
Theorem script_opens_only_lock_and_log env args w :
  exists new_opens new_writes,
    opens (after env args w) = opens w ++ new_opens
    /\ writes (after env args w) = writes w ++ new_writes
    /\ Forall (fun pm => pm = (lock args, py "w") \/ pm = (log args, py "a")) new_opens
    /\ Forall (fun pd => pd.1 = log args) new_writes.
Proof.
  unfold after, opens, writes.
  destruct (unopenable env (lock args)) eqn:Hopen;
    [|destruct (held env (resolve env (lock args))) eqn:Hheld].
  - rewrite (ScriptFacts.main_unopenable env args w Hopen). cbn [snd events].
    rewrite !omap_app. eexists _, _. split; [reflexivity|]. split; [reflexivity|].
    cbn [omap list_omap]. split; repeat constructor.
  - rewrite (ScriptFacts.main_held env args w Hopen Hheld). cbn [snd events].
    rewrite !omap_app. eexists _, _. split; [reflexivity|]. split; [reflexivity|].
    cbn [omap list_omap]. split; repeat constructor.
  - assert (Hfree : lock_refused env (lock args) = false)
      by (unfold lock_refused; rewrite Hopen, Hheld; reflexivity).
    destruct (Z.eq_dec (returncode (child env (cmd_of args))) 0) as [E|E].
    + rewrite (ScriptFacts.main_ok env args w Hfree E). cbn [snd events]. cbv zeta.
      rewrite !omap_app. eexists _, _. split; [reflexivity|]. split; [reflexivity|].
      destruct (o args); cbn [omap list_omap app]; split;
        repeat first [ apply List.Forall_nil | apply List.Forall_cons; [auto|] ].
    + rewrite (ScriptFacts.main_fail env args w Hfree E). cbn [snd events]. cbv zeta.
      rewrite !omap_app. eexists _, _. split; [reflexivity|]. split; [reflexivity|].
      cbn [omap list_omap]. split;
        repeat first [ apply List.Forall_nil | apply List.Forall_cons; [auto|] ].
Qed.

Lemma script_opens_only_lock_and_log_witness :
  exists new_opens new_writes,
    opens (after (Demo.env_free 2) Demo.args_default Demo.world_logged) = new_opens
    /\ writes (after (Demo.env_free 2) Demo.args_default Demo.world_logged) = new_writes
    /\ length new_opens = 2%nat
    /\ length new_writes = 1%nat
    /\ Forall (fun pm => pm = (Demo.default_lock, py "w") \/ pm = (Demo.default_log, py "a"))
         new_opens
    /\ Forall (fun pd => pd.1 = Demo.default_log) new_writes.
Proof.
  destruct (script_opens_only_lock_and_log (Demo.env_free 2) Demo.args_default
              Demo.world_logged) as (no & nw & Ho & Hw & Hfo & Hfw).
  assert (Ho' : opens (after (Demo.env_free 2) Demo.args_default Demo.world_logged) = no)
    by exact Ho.
  assert (Hw' : writes (after (Demo.env_free 2) Demo.args_default Demo.world_logged) = nw)
    by exact Hw.
  exists no, nw. split; [exact Ho'|]. split; [exact Hw'|].
  split; [rewrite <- Ho'; reflexivity|]. split; [rewrite <- Hw'; reflexivity|].
  split; [exact Hfo | exact Hfw].
Defined.

(** X4. Every run that can open the lock file leaves it existing and empty,
    also a run that finds the lock held by another process: whatever the file
    held is lost (provided the log is another file, or the lock is held). *)
Theorem lock_file_emptied env args w :
  unopenable env (lock args) = false ->
  resolve env (lock args) <> resolve env (log args)
    \/ held env (resolve env (lock args)) = true ->
  files (after env args w) !! resolve env (lock args) = Some [].
Proof.
  intros Hopen H. destruct (ScriptFacts.files_after env args w) as [line ->].
  rewrite Hopen.
  destruct (held env (resolve env (lock args))) eqn:Hheld.
  - apply lookup_insert_eq.
  - destruct H as [Hne | Habs]; [|discriminate].
    rewrite ScriptFacts.append_to_other by exact Hne.
    apply lookup_insert_eq.
Qed.

Lemma lock_file_emptied_witness :
  files Demo.world_logged !! resolve Demo.env_held (lock Demo.args_alias)
  = Some Demo.old_log
  /\ files (after Demo.env_held Demo.args_alias Demo.world_logged)
       !! resolve Demo.env_held (lock Demo.args_alias)
     = Some [].
Proof.
  split; [reflexivity|].
  apply (lock_file_emptied Demo.env_held Demo.args_alias Demo.world_logged).
  - reflexivity.
  - right. reflexivity.
Defined.

(** X5. The message of a failed run determines the exit code: two different
    exit codes never give the same message. *)
Theorem failure_message_determines_code a b :
  failure_message a = failure_message b -> a = b.
Proof.
  unfold failure_message.
  destruct (Z.eqb_spec a 1) as [->|Ha1]; destruct (Z.eqb_spec b 1) as [->|Hb1];
    try reflexivity;
    try (destruct (Z.eqb_spec b 2) as [->|Hb2]; intros H; discriminate H);
    try (destruct (Z.eqb_spec a 2) as [->|Ha2]; intros H; discriminate H).
  destruct (Z.eqb_spec a 2) as [->|Ha2]; destruct (Z.eqb_spec b 2) as [->|Hb2];
    try reflexivity; try (intros H; discriminate H).
  intros H. apply app_inv_head in H. apply PyStrFacts.str_int_inj, H.
Qed.

Lemma failure_message_determines_code_witness : (-9) = (-9).
Proof.
  exact (failure_message_determines_code (-9) (-9) eq_refl).
Defined.

(** X6. Whatever the arguments and the output of the command contain (line
    breaks, quotes, control characters, any code point of Unicode, in or
    beyond the basic plane), the line a run adds to the log is printable
    ASCII followed by one line break. *)
Theorem log_line_printable_ascii env args w :
  lock_refused env (lock args) = false ->
  exists body,
    written (log args) (after env args w)
      = written (log args) w ++ [body ++ PyStr.newline]
    /\ printable body = true
    /\ one_line body = true.
Proof.
  intros Hfree. eexists. split; [apply (ScriptFacts.written_free env args w Hfree)|].
  split; [apply JsonFacts.printable_dumps | apply JsonFacts.one_line_dumps].
Qed.

Lemma log_line_printable_ascii_witness :
  exists body,
    captured_output (child (Demo.env_free 2) (cmd_of Demo.args_default))
      = py "upload: a.txt " ++ [0x2192%N; 0x1F600%N] ++ py " s3" ++ PyStr.newline
        ++ py "warning: b.txt skipped"
    /\ written (log Demo.args_default)
         (after (Demo.env_free 2) Demo.args_default Demo.world_fresh)
       = [body ++ PyStr.newline]
    /\ printable body = true.
Proof.
  destruct (log_line_printable_ascii (Demo.env_free 2) Demo.args_default
              Demo.world_fresh eq_refl) as (body & Hw & Hp & _).
  exists body. split; [reflexivity|]. split; [exact Hw | exact Hp].
Defined.

(** X7. Two runs one after the other, each passing the lock, leave the log
    with what it held before and then the line of the first run and the line
    of the second, in that order (the lock path and the log path naming
    different files). *)
Theorem successive_runs_accumulate env1 env2 args w :
  resolve env2 (log args) = resolve env1 (log args) ->
  resolve env1 (lock args) <> resolve env1 (log args) ->
  resolve env2 (lock args) <> resolve env2 (log args) ->
  lock_refused env1 (lock args) = false ->
  lock_refused env2 (lock args) = false ->
  exists line1 line2,
    written (log args) (after env1 args w) = written (log args) w ++ [line1]
    /\ written (log args) (after env2 args (after env1 args w))
       = written (log args) w ++ [line1; line2]
    /\ files (after env2 args (after env1 args w)) !! resolve env1 (log args)
       = Some (default [] (files w !! resolve env1 (log args)) ++ line1 ++ line2).
Proof.
  intros Hsame Hne1 Hne2 H1 H2.
  destruct (ScriptFacts.log_after_free env1 args w H1 Hne1) as (b1 & _ & Hw1 & Hf1).
  destruct (ScriptFacts.log_after_free env2 args (after env1 args w) H2 Hne2)
    as (b2 & _ & Hw2 & Hf2).
  rewrite Hsame in Hf2.
  exists (b1 ++ PyStr.newline), (b2 ++ PyStr.newline).
  split; [exact Hw1|]. split.
  - rewrite Hw2, Hw1, <- List.app_assoc. reflexivity.
  - rewrite Hf2, Hf1. unfold default at 1. cbn [from_option id].
    rewrite <- !List.app_assoc. reflexivity.
Qed.

Lemma successive_runs_accumulate_witness :
  exists line1 line2,
    files (after (Demo.env_free 1) Demo.args_default
             (after (Demo.env_free 0) Demo.args_default Demo.world_logged))
      !! resolve (Demo.env_free 0) (log Demo.args_default)
    = Some (Demo.old_log ++ line1 ++ line2).
Proof.
  destruct (successive_runs_accumulate (Demo.env_free 0) (Demo.env_free 1)
              Demo.args_default Demo.world_logged) as (l1 & l2 & _ & _ & Hf);
    [reflexivity | vm_compute; discriminate | vm_compute; discriminate
     | reflexivity | reflexivity |].
  exists l1, l2. exact Hf.
Defined.

(** X8. The options field of the log does not keep the boundaries of the
    arguments: a run with the two options [a] and [b] and a run with the one
    option "a b" log the same options text, although they run different
    commands. *)
Theorem options_field_loses_boundaries env args a b rest w :
  lock_refused env (lock args) = false ->
  let args2 := with_options args (a :: b :: rest) in
  let args1 := with_options args (PyStr.dapp a (PyStr.dapp (PyStr.lit " ") b) :: rest) in
  (exists entry1 entry2 options,
     last_record (log args) (after env args1 w) = Some entry1
     /\ last_record (log args) (after env args2 w) = Some entry2
     /\ extra_field "options" entry1 = Some options
     /\ extra_field "options" entry2 = Some options)
  /\ runs (after env args1 w) <> runs (after env args2 w).
Proof.
  intros Hfree args2 args1. split.
  - eexists _, _, _.
    split; [apply (ScriptFacts.last_record_free env args1 w Hfree)|].
    split; [apply (ScriptFacts.last_record_free env args2 w Hfree)|].
    split; [reflexivity|].
    change (extra_field "options"
              (log_entry
                 (Datetime.strftime_iso (utc (clock env (3 + clock_reads w))))
                 (unique_id (epoch_us (clock env (clock_reads w))) (pid env))
                 (if returncode (child env (cmd_of args2)) =? 0 then py "info" else py "error")
                 (if returncode (child env (cmd_of args2)) =? 0
                  then py "Sync successful."
                  else failure_message (returncode (child env (cmd_of args2))))
                 (extra_info args2 (captured_output (child env (cmd_of args2)))
                    (local (clock env (1 + clock_reads w)))
                    (local (clock env (2 + clock_reads w))))))
      with (Some (PyStr.join (py " ") (map PyStr.chars (sync_options args2)))).
    cbn [sync_options args1 args2 with_options PyStr.join map PyStr.chars PyStr.dapp PyStr.lit].
    f_equal. destruct rest as [|r rest]; cbn [map PyStr.join];
      rewrite <- ?List.app_assoc; reflexivity.
  - rewrite (ScriptFacts.runs_free env args1 w Hfree), (ScriptFacts.runs_free env args2 w Hfree).
    intros Heq. apply app_inv_head in Heq.
    assert (Hcmd : cmd_of args1 = cmd_of args2) by congruence.
    clear Heq. rename Hcmd into Heq.
    apply (f_equal (@length _)) in Heq.
    subst args1 args2. unfold cmd_of in Heq.
    cbn [sync_options with_options map app length] in Heq.
    rewrite !length_map in Heq. lia.
Qed.

Lemma options_field_loses_boundaries_witness :
  exists entry1 entry2 options,
    last_record (log Demo.args_default)
      (after (Demo.env_free 0)
         (with_options Demo.args_default
            [PyStr.dapp (PyStr.lit "--exclude") (PyStr.dapp (PyStr.lit " ") (PyStr.lit "*.tmp"))])
         Demo.world_fresh) = Some entry1
    /\ last_record (log Demo.args_default)
         (after (Demo.env_free 0)
            (with_options Demo.args_default [PyStr.lit "--exclude"; PyStr.lit "*.tmp"])
            Demo.world_fresh) = Some entry2
    /\ extra_field "options" entry1 = Some options
    /\ extra_field "options" entry2 = Some options.
Proof.
  exact (proj1 (options_field_loses_boundaries (Demo.env_free 0) Demo.args_default
                  (PyStr.lit "--exclude") (PyStr.lit "*.tmp") [] Demo.world_fresh eq_refl)).
Defined.

(** X9. Every run opens the lock path for writing exactly once and then
    tries the lock at most once: once when the file could be opened, whether
    the lock is free or held, and not at all when it could not; there is no
    second attempt and no wait. *)
Theorem lock_tried_at_most_once env args w :
  lock_attempts (after env args w)
  = lock_attempts w ++ (if unopenable env (lock args) then [] else [lock args])
  /\ filter (fun pm => bool_decide (pm.2 = py "w")) (opens (after env args w))
     = filter (fun pm => bool_decide (pm.2 = py "w")) (opens w) ++ [(lock args, py "w")].
Proof.
  unfold after, lock_attempts, opens.
  destruct (unopenable env (lock args)) eqn:Hopen;
    [|destruct (held env (resolve env (lock args))) eqn:Hheld].
  - rewrite (ScriptFacts.main_unopenable env args w Hopen). cbn [snd events].
    rewrite !omap_app, filter_app. split; reflexivity.
  - rewrite (ScriptFacts.main_held env args w Hopen Hheld). cbn [snd events].
    rewrite !omap_app, filter_app. split; reflexivity.
  - assert (Hfree : lock_refused env (lock args) = false)
      by (unfold lock_refused; rewrite Hopen, Hheld; reflexivity).
    destruct (Z.eq_dec (returncode (child env (cmd_of args))) 0) as [E|E].
    + rewrite (ScriptFacts.main_ok env args w Hfree E). cbn [snd events]. cbv zeta.
      rewrite !omap_app, !filter_app.
      destruct (o args); split; cbn; rewrite ?List.app_nil_r; reflexivity.
    + rewrite (ScriptFacts.main_fail env args w Hfree E). cbn [snd events]. cbv zeta.
      rewrite !omap_app, filter_app. split; reflexivity.
Qed.

Lemma lock_tried_at_most_once_witness :
  lock_attempts (after Demo.env_unopenable Demo.args_default Demo.world_fresh) = []
  /\ lock_attempts (after Demo.env_held Demo.args_default Demo.world_fresh)
     = [Demo.default_lock]
  /\ lock_attempts (after (Demo.env_free 0) Demo.args_default Demo.world_fresh)
     = [Demo.default_lock].
Proof.
  split; [|split].
  - exact (proj1 (lock_tried_at_most_once Demo.env_unopenable Demo.args_default
                    Demo.world_fresh)).
  - exact (proj1 (lock_tried_at_most_once Demo.env_held Demo.args_default
                    Demo.world_fresh)).
  - exact (proj1 (lock_tried_at_most_once (Demo.env_free 0) Demo.args_default
                    Demo.world_fresh)).
Defined.

(** X12. The timestamp of an entry is read when the entry is written, after
    the command has exited and after [end_time]: in every run that passes the
    lock the effects end with the command, the reading of [end_time], the
    reading of the UTC clock, the opening of the log for appending and the
    one write (and, after a success with [--o], the summary). *)
Theorem timestamp_read_after_command env args w :
  lock_refused env (lock args) = false ->
  exists pre line post entry,
    events (after env args w)
    = events w ++ pre
      ++ [EvRun (cmd_of args);
          EvNow (end_reading env w);
          EvUtcnow (utc (clock env (3 + clock_reads w)));
          EvOpen (log args) (py "a");
          EvWrite (log args) line]
      ++ post
    /\ (post = [] \/ post = [EvPrint Stdout (well_done args)])
    /\ last_record (log args) (after env args w) = Some entry
    /\ str_field "timestamp" entry
       = Some (Datetime.strftime_iso (utc (clock env (3 + clock_reads w)))).
Proof.
  intros Hfree. unfold end_reading.
  exists [EvTime (epoch_us (clock env (clock_reads w))); EvGetpid (pid env);
          EvNow (local (clock env (1 + clock_reads w)));
          EvOpen (lock args) (py "w"); EvFlock (lock args)].
  destruct (Z.eq_dec (returncode (child env (cmd_of args))) 0) as [E|E].
  - eexists. exists (if o args then [EvPrint Stdout (well_done args)] else []). eexists.
    split; [|split; [|split]].
    + unfold after. rewrite (ScriptFacts.main_ok env args w Hfree E). reflexivity.
    + destruct (o args); auto.
    + apply (ScriptFacts.last_record_free env args w Hfree).
    + reflexivity.
  - eexists. exists []. eexists.
    split; [|split; [|split]].
    + unfold after. rewrite (ScriptFacts.main_fail env args w Hfree E). reflexivity.
    + auto.
    + apply (ScriptFacts.last_record_free env args w Hfree).
    + reflexivity.
Qed.

Lemma timestamp_read_after_command_witness :
  exists entry,
    last_record (log Demo.args_default)
      (after Demo.env_fallback Demo.args_default Demo.world_fresh) = Some entry
    /\ str_field "timestamp" entry = Some (py "2024-11-03T06:00:05Z").
Proof.
  destruct (timestamp_read_after_command Demo.env_fallback Demo.args_default
              Demo.world_fresh eq_refl) as (pre & line & post & entry & _ & _ & Hrec & Hts).
  exists entry. split; [exact Hrec | exact Hts].
Defined.

(** X13. Taking the lock (lines 40-45) has three outcomes.  When the lock
    file cannot be opened, no file is created or changed and the lock is not
    tried; when it is opened and the lock is held, the file has been created
    or emptied; in both cases the handler of line 43 prints the same fixed
    message on standard output and [main] returns early.  When the lock is
    free, the file has been created or emptied, nothing is printed and the
    run goes on. *)
Theorem acquire_lock_outcomes env path w :
  fst (acquire_lock env path w) = Ok (negb (lock_refused env path))
  /\ files (snd (acquire_lock env path w))
     = (if unopenable env path then files w else <[resolve env path := []]> (files w))
  /\ lock_attempts (snd (acquire_lock env path w))
     = lock_attempts w ++ (if unopenable env path then [] else [path])
  /\ out (snd (acquire_lock env path w))
     = (if lock_refused env path
        then out w ++ py "Error: Could not acquire lock" ++ PyStr.newline
        else out w)
  /\ err (snd (acquire_lock env path w)) = err w.
Proof.
  unfold lock_refused, lock_attempts.
  unfold acquire_lock, open_w, flock, try_except, print, emit, raise, set_files, get_files.
  unfold mbind, M_bind, mret, M_ret. cbn [events files out err fst snd].
  destruct (unopenable env path); cbn [events files out err fst snd negb orb].
  - rewrite !omap_app. cbn [omap list_omap]. rewrite !List.app_nil_r. repeat split.
  - destruct (held env (resolve env path)); cbn [events files out err fst snd negb];
      rewrite !omap_app; cbn [omap list_omap]; rewrite ?List.app_nil_r; repeat split.
Qed.

Lemma acquire_lock_outcomes_witness :
  fst (acquire_lock Demo.env_unopenable Demo.default_lock Demo.world_logged) = Ok false
  /\ files (snd (acquire_lock Demo.env_unopenable Demo.default_lock Demo.world_logged))
     = files Demo.world_logged
  /\ fst (acquire_lock Demo.env_held Demo.default_lock Demo.world_logged) = Ok false
  /\ fst (acquire_lock (Demo.env_free 0) Demo.default_lock Demo.world_logged) = Ok true.
Proof.
  split; [|split; [|split]].
  - exact (proj1 (acquire_lock_outcomes Demo.env_unopenable Demo.default_lock
                    Demo.world_logged)).
  - exact (proj1 (proj2 (acquire_lock_outcomes Demo.env_unopenable Demo.default_lock
                           Demo.world_logged))).
  - exact (proj1 (acquire_lock_outcomes Demo.env_held Demo.default_lock Demo.world_logged)).
  - exact (proj1 (acquire_lock_outcomes (Demo.env_free 0) Demo.default_lock
                    Demo.world_logged)).
Defined.
